(** * Octavus agent SDK: the streaming continuation engine

    A shallow embedding of the server SDK's streaming code:
    - [executeStream] (streaming module): the continuation loop shared by
      sessions and workers, with its inline SSE frame decoding;
    - [toSSEStream] and [handleResourceUpdate] (session.ts);
    - [executeWorkerStream] (workers.ts): the workers' own inline loop.

    Conventions of the embedding.
    - Text is a [string]; the decoding loop only looks at the newline
      character and at the prefix of a line, so the character width of the
      host language does not matter here.
    - An [async function*] becomes a function that returns the ordered log
      of what the generator did (events yielded, requests issued, callbacks
      invoked) together with how it ended (returned, or threw).
    - The network is a script: the list of the responses the successive
      [fetch] calls receive; a request past the end of the script fails at
      transport level.  Each loop iteration consumes one response, so the
      loop is structurally recursive on the script.
    - The abort signal is polled; between two polls the generator is
      suspended at least once, so the polls may observe any monotone
      sequence of booleans.  [Some n] is the signal that reads aborted from
      poll number [n] on, [None] a signal that is absent or never aborts.
    - The handler object is only read, with [toolHandlers[name]]; such a
      read also finds what the object inherits, so the object is modelled
      with its own properties and its prototype chain ([ToolHandlers]). *)

From Stdlib Require Import ZArith String Ascii List Lia.
From stdpp Require Import base strings list gmap.

Local Open Scope Z_scope.
Local Open Scope nat_scope.

#[local] Set Default Proof Using "Type".

(** ** Text helpers (String.prototype.split, startsWith, slice, Array.pop) *)

Definition newline : ascii := Ascii.ascii_of_nat 10.

(** [buffer.split('\n')]: always at least one piece. *)
Fixpoint split_newline (s : string) : list string :=
  match s with
  | EmptyString => [EmptyString]
  | String c rest =>
      if Ascii.eqb c newline then EmptyString :: split_newline rest
      else match split_newline rest with
           | piece :: pieces => String c piece :: pieces
           | [] => [String c EmptyString]
           end
  end.

(** [lines.pop()]: the array without its last element, and that element. *)
Fixpoint pop {A : Type} (l : list A) : list A * option A :=
  match l with
  | [] => ([], None)
  | x :: l' =>
      match l' with
      | [] => ([], Some x)
      | _ :: _ => let '(front, last) := pop l' in (x :: front, last)
      end
  end.

(** [line.slice(n)] *)
Fixpoint slice (n : nat) (s : string) : string :=
  match n, s with
  | O, _ => s
  | S _, EmptyString => EmptyString
  | S n', String _ rest => slice n' rest
  end.

(** [line.startsWith(pre)] *)
Fixpoint startsWith (line pre : string) {struct pre} : bool :=
  match pre with
  | EmptyString => true
  | String p pre' =>
      match line with
      | EmptyString => false
      | String c line' => Ascii.eqb c p && startsWith line' pre'
      end
  end.

(** ** Data model (stream/types of the core package, as the engine uses it) *)

(** An opaque JSON-like value ([unknown] in the source). *)
#[local] Set Warnings "-register-all".
Inductive Value : Type :=
| VUndefined
| VNull
| VBool (b : bool)
| VNum (n : Z)
| VStr (s : string)
| VArr (items : list Value)
| VObj (fields : list (string * Value)).

Record PendingToolCall : Type := mkPendingToolCall {
  tc_toolCallId : string;
  tc_toolName : string;
  tc_args : Value;
  tc_outputVariable : option string;
  tc_blockIndex : option Z;
  tc_thread : option string;
  tc_workerId : option string
}.

(** [None] in an optional field is an absent (or undefined) property. *)
Record ToolResult : Type := mkToolResult {
  tr_toolCallId : string;
  tr_toolName : string;
  tr_result : option Value;
  tr_error : option string;
  tr_outputVariable : option string;
  tr_blockIndex : option Z;
  tr_thread : option string;
  tr_workerId : option string
}.

(** The tagged union of stream events, with the variants the engine
    inspects or creates spelled out and every other variant kept as
    [OtherEvent] (text, reasoning, block, worker events...), which the
    engine forwards untouched. *)
Inductive StreamEvent : Type :=
| Start (executionId : option string)
| Finish (finishReason : string) (executionId : option string)
| ErrorEvent (errorType : string) (message : string) (status : option Z)
| ToolRequest (toolCalls : list PendingToolCall)
| ClientToolRequest (executionId : string) (toolCalls : list PendingToolCall)
    (serverToolResults : option (list ToolResult))
| ToolOutputAvailable (toolCallId : string) (output : Value)
| ToolOutputError (toolCallId : string) (error : string)
| ResourceUpdate (name : string) (value : Value)
| OtherEvent (type : string) (payload : Value).

(** Modelled from the spec: [createInternalErrorEvent] of the core package
    (errors/helpers is not among the sources); the spec calls its result
    the internal-error event. *)
Definition createInternalErrorEvent (message : string) : StreamEvent :=
  ErrorEvent "internal_error" message None.

(** Modelled from the spec: [createApiErrorEvent] of the core package
    (errors/helpers is not among the sources); the spec describes an error
    event carrying the status and the message. *)
Definition createApiErrorEvent (status : Z) (message : string) : StreamEvent :=
  ErrorEvent "api_error" message (Some status).

(** A tool handler is an async function; what matters to the engine is
    whether its promise resolves, rejects with an [Error] or rejects with
    something else. *)
Inductive HandlerOutcome : Type :=
| Resolves (result : Value)
| ThrowsError (message : string)
| ThrowsOther.

Abbreviation ToolHandler := (Value -> HandlerOutcome).

(** The handler object ([ToolHandlers] of the core package).  The engine
    only reads it, with [toolHandlers[name]], and such a read finds an own
    property first and a property of the prototype chain otherwise: [own]
    is the finite map of the own properties, [inherited] is what the
    prototype chain gives for a name.  A property whose value is not
    callable is the handler that throws the [TypeError] of its call. *)
Record ToolHandlers : Type := mkToolHandlers {
  own : gmap string ToolHandler;
  inherited : string -> option ToolHandler
}.

(** [handlers[name]] *)
#[global] Instance ToolHandlers_lookup : Lookup string ToolHandler ToolHandlers :=
  fun name handlers =>
    match own handlers !! name with
    | Some handler => Some handler
    | None => inherited handlers name
    end.

(** The methods of [Object.prototype] that begin by converting [this] to
    an object, and its accessor [__proto__]. *)
Definition ObjectPrototypeThrowing : list string :=
  [ "valueOf"; "toLocaleString"; "hasOwnProperty"; "propertyIsEnumerable";
    "__defineGetter__"; "__defineSetter__"; "__lookupGetter__"; "__lookupSetter__";
    "__proto__" ].

(** [Object.prototype], the prototype of an object literal, as the engine
    meets it: what [toolHandlers[name]] finds there and what
    [handler(tc.args)] then does, the call being a plain one ([this] is
    undefined).  [toString] returns the tag of undefined; [constructor] is
    [Object], which returns its argument, or a new object for undefined and
    null (a primitive is wrapped, and serializes as the primitive);
    [isPrototypeOf] returns false unless its argument is an object; the
    other methods need [this] as an object and throw a [TypeError];
    [__proto__] reads as the prototype itself, which is not callable.  The
    text of a [TypeError] is left to the JavaScript engine: [typeError name
    args] is the message for the call of member [name] on [args]. *)
Definition ObjectPrototype (typeError : string -> Value -> string) (name : string)
  : option ToolHandler :=
  if String.eqb name "toString" then
    Some (fun _ => Resolves (VStr "[object Undefined]"))
  else if String.eqb name "constructor" then
    Some (fun args =>
            match args with
            | VUndefined | VNull => Resolves (VObj [])
            | _ => Resolves args
            end)
  else if String.eqb name "isPrototypeOf" then
    Some (fun args =>
            match args with
            | VObj _ | VArr _ => ThrowsError (typeError name args)
            | _ => Resolves (VBool false)
            end)
  else if existsb (String.eqb name) ObjectPrototypeThrowing then
    Some (fun args => ThrowsError (typeError name args))
  else None.

(** An object literal with the given own properties. *)
Definition plainObject (typeError : string -> Value -> string)
    (properties : gmap string ToolHandler) : ToolHandlers :=
  mkToolHandlers properties (ObjectPrototype typeError).

(** A synchronous callback either returns or throws. *)
Inductive CallbackOutcome : Type := CbReturns | CbThrows.

(** JavaScript truthiness of an optional string: undefined and the empty
    string are falsy. *)
Definition truthy (s : option string) : bool :=
  match s with
  | Some s => negb (String.eqb s "")
  | None => false
  end.

(** ** SSE frame decoding: one step of the read loop *)

(** [buffer += text; lines = buffer.split('\n'); buffer = lines.pop() ?? ''] *)
Definition takeLines (buffer text : string) : list string * string :=
  let '(lines, last) := pop (split_newline (buffer +:+ text)) in
  (lines, default EmptyString last).

(** What prefixing one ordinary character does to the result of
    [takeLines]: it goes in front of the first line, or of the remainder
    when there is no complete line. *)
Definition prependChar (c : ascii) (r : list string * string) : list string * string :=
  match fst r with
  | [] => ([], String c (snd r))
  | line :: lines => (String c line :: lines, snd r)
  end.

Fixpoint hasNewline (s : string) : bool :=
  match s with
  | EmptyString => false
  | String c rest => Ascii.eqb c newline || hasNewline rest
  end.

(** [line.startsWith('data: ') && line !== 'data: [DONE]'] *)
Definition isDataLine (line : string) : bool :=
  startsWith line "data: " && negb (String.eqb line "data: [DONE]").

(** ** The environment of one invocation *)

(** What one [reader.read()] gives, before the stream reports [done]. *)
Inductive ReadResult : Type :=
| ReadChunk (value : list Byte.byte)
| ReadAbortError
| ReadError (err : string).

(** What one [fetch] gives.  [NotOk] carries the message [parseApiError]
    extracts from the error body, as a function of the error context.  The
    body of a readable response is the list of its reads; the read after
    the last one reports [done].  The request body is taken to serialize:
    [Value] holds no value that [JSON.stringify] refuses. *)
Inductive Response : Type :=
| FetchAbortError
| FetchError (err : string)
| NotOk (status : Z) (apiError : string -> string)
| OkNoBody
| OkBody (reads : list ReadResult).

(** [signal?.aborted] at poll number [clock]. *)
Definition aborted (signal : option nat) (clock : nat) : bool :=
  match signal with
  | Some n => n <=? clock
  | None => false
  end.

Inductive Outcome : Type :=
| Returned
| Threw (err : string).

Section Engine.

(** The shape of a request body is the caller's ([buildBody]). *)
Variable Body : Type.

(** [JSON.parse] followed by [safeParseStreamEvent] of the core package:
    [None] when the payload is not JSON or not a valid event. *)
Variable parseEvent : string -> option StreamEvent.

(** [TextDecoder] in streaming mode: the state holds the bytes of an
    incomplete character. *)
Variable DecoderState : Type.
Variable newTextDecoder : DecoderState.
Variable decode : DecoderState -> list Byte.byte -> DecoderState * string.

(** What the generator does, in order. *)
Inductive Action : Type :=
| Yield (event : StreamEvent)
| Fetch (url : string) (body : Body)
| CallOnResourceUpdate (name : string) (value : Value).

(** [toolHandlers] is the handler object; [config.toolHandlers[name]] is
    its property read [toolHandlers config !! name], own or inherited. *)
Record StreamExecutionConfig : Type := mkConfig {
  toolHandlers : ToolHandlers;
  url : string;
  buildBody : option string -> option (list ToolResult) -> Body;
  onResourceUpdate : option (string -> Value -> CallbackOutcome);
  errorContext : option string
}.

Record StreamExecutionPayload : Type := mkPayload {
  payload_executionId : option string;
  payload_toolResults : option (list ToolResult)
}.

(** The variables the read loop shares with the outer loop. *)
Record LoopVars : Type := mkLoopVars {
  v_executionId : option string;
  v_pendingToolCalls : option (list PendingToolCall);
  v_continueLoop : bool
}.

Definition finishStop : StreamEvent := Finish "stop" None.

Section Invocation.

Variable config : StreamExecutionConfig.
Variable signal : option nat.

(** The body of [for (const line of lines)] once the line has parsed
    to [event]. *)
Definition handleEvent (vars : LoopVars) (event : StreamEvent)
  : list Action * LoopVars :=
  let vars1 :=
    match event with
    | Start id =>
        if truthy id
        then mkLoopVars id (v_pendingToolCalls vars) (v_continueLoop vars)
        else vars
    | _ => vars
    end in
  match event with
  | ToolRequest calls =>
      ([], mkLoopVars (v_executionId vars1) (Some calls) (v_continueLoop vars1))
  | Finish reason _ =>
      if String.eqb reason "tool-calls" && bool_decide (is_Some (v_pendingToolCalls vars1))
      then ([], vars1)
      else ([Yield event],
            mkLoopVars (v_executionId vars1) (v_pendingToolCalls vars1) false)
  | ResourceUpdate name value =>
      match onResourceUpdate config with
      | Some callback =>
          match callback name value with
          | CbReturns => ([CallOnResourceUpdate name value; Yield event], vars1)
          | CbThrows => ([CallOnResourceUpdate name value], vars1)
          end
      | None => ([Yield event], vars1)
      end
  | _ => ([Yield event], vars1)
  end.

(** One line of the chunk. *)
Definition processLine (vars : LoopVars) (line : string)
  : list Action * LoopVars :=
  if isDataLine line then
    match parseEvent (slice 6 line) with
    | Some event => handleEvent vars event
    | None => ([], vars)
    end
  else ([], vars).

Fixpoint processLines (vars : LoopVars) (lines : list string)
  : list Action * LoopVars :=
  match lines with
  | [] => ([], vars)
  | line :: rest =>
      let '(acts, vars') := processLine vars line in
      let '(acts', vars'') := processLines vars' rest in
      (acts ++ acts', vars'')
  end.

(** How [while (!streamDone)] ends: the generator is over, or the
    stream reported [done]. *)
Inductive ReadEnd : Type :=
| Stopped (outcome : Outcome)
| StreamDone (vars : LoopVars) (clock : nat).

Fixpoint readLoop (reads : list ReadResult) (decoder : DecoderState)
    (buffer : string) (vars : LoopVars) (clock : nat)
  : list Action * ReadEnd :=
  if aborted signal clock then ([Yield finishStop], Stopped Returned)
  else
    match reads with
    | [] => ([], StreamDone vars (S clock))
    | ReadAbortError :: _ => ([Yield finishStop], Stopped Returned)
    | ReadError err :: _ => ([], Stopped (Threw err))
    | ReadChunk value :: rest =>
        let '(decoder', text) := decode decoder value in
        let '(lines, buffer') := takeLines buffer text in
        let '(acts, vars') := processLines vars lines in
        let '(acts', ending) := readLoop rest decoder' buffer' vars' (S clock) in
        (acts ++ acts', ending)
    end.

(** The handler call of one server tool, with its [try]/[catch].  The
    handler is looked up again with a non-null assertion; were it
    absent, the call inside the [try] would throw a [TypeError]. *)
Definition runServerTool (tc : PendingToolCall) : ToolResult :=
  let outcome :=
    match toolHandlers config !! tc_toolName tc with
    | Some handler => handler (tc_args tc)
    | None => ThrowsError "handler is not a function"
    end in
  match outcome with
  | Resolves result =>
      mkToolResult (tc_toolCallId tc) (tc_toolName tc) (Some result) None
        (tc_outputVariable tc) (tc_blockIndex tc) (tc_thread tc) (tc_workerId tc)
  | ThrowsError message =>
      mkToolResult (tc_toolCallId tc) (tc_toolName tc) None (Some message)
        (tc_outputVariable tc) (tc_blockIndex tc) (tc_thread tc) (tc_workerId tc)
  | ThrowsOther =>
      mkToolResult (tc_toolCallId tc) (tc_toolName tc) None
        (Some "Tool execution failed")
        (tc_outputVariable tc) (tc_blockIndex tc) (tc_thread tc) (tc_workerId tc)
  end.

Definition hasHandler (tc : PendingToolCall) : Prop :=
  is_Some (toolHandlers config !! tc_toolName tc).

Definition serverTools (pending : list PendingToolCall) : list PendingToolCall :=
  filter hasHandler pending.

Definition clientTools (pending : list PendingToolCall) : list PendingToolCall :=
  filter (fun tc => ~ hasHandler tc) pending.

(** [Promise.all] keeps the order of the array. *)
Definition serverResults (pending : list PendingToolCall) : list ToolResult :=
  map runServerTool (serverTools pending).

(** The body of [for (const tr of serverResults)]. *)
Definition toolOutputEvent (tr : ToolResult) : StreamEvent :=
  if truthy (tr_error tr)
  then ToolOutputError (tr_toolCallId tr) (default EmptyString (tr_error tr))
  else ToolOutputAvailable (tr_toolCallId tr) (default VUndefined (tr_result tr)).

(** How one iteration of [while (continueLoop)] ends after the stream
    closed. *)
Inductive Next : Type :=
| Exit (outcome : Outcome)
| Again (toolResults : list ToolResult).

(** From [if (pendingToolCalls && pendingToolCalls.length > 0)] to the
    end of the loop body. *)
Definition afterStream (vars : LoopVars) : list Action * Next :=
  match v_pendingToolCalls vars with
  | Some (tc :: tcs) =>
      let pending := tc :: tcs in
      let results := serverResults pending in
      let outputs := map (fun tr => Yield (toolOutputEvent tr)) results in
      match clientTools pending with
      | _ :: _ =>
          if negb (truthy (v_executionId vars)) then
            (outputs ++
               [Yield (createInternalErrorEvent
                         "Missing executionId for client-tool-request")],
             Exit Returned)
          else
            let id := default EmptyString (v_executionId vars) in
            (outputs ++
               [Yield (ClientToolRequest id (clientTools pending)
                         (match results with [] => None | _ :: _ => Some results end));
                Yield (Finish "client-tool-calls" (Some id))],
             Exit Returned)
      | [] =>
          (outputs, if v_continueLoop vars then Again results else Exit Returned)
      end
  | _ => ([], Exit Returned)
  end.

(** [while (continueLoop)], entered with [continueLoop] true. *)
Fixpoint executeLoop (responses : list Response) (executionId : option string)
    (toolResults : option (list ToolResult)) (clock : nat)
  : list Action * Outcome :=
  if aborted signal clock then ([Yield finishStop], Returned)
  else
    let request := Fetch (url config) (buildBody config executionId toolResults) in
    match responses with
    | [] => ([request], Threw "fetch failed")
    | FetchAbortError :: _ => ([request; Yield finishStop], Returned)
    | FetchError err :: _ => ([request], Threw err)
    | NotOk status apiError :: _ =>
        ([request;
          Yield (createApiErrorEvent status
                   (apiError (default "Request failed" (errorContext config))))],
         Returned)
    | OkNoBody :: _ =>
        ([request; Yield (createInternalErrorEvent "Response body is not readable")],
         Returned)
    | OkBody reads :: later =>
        let '(acts, ending) :=
          readLoop reads newTextDecoder EmptyString
            (mkLoopVars executionId None true) (S clock) in
        match ending with
        | Stopped outcome => (request :: acts, outcome)
        | StreamDone vars clock' =>
            if aborted signal clock'
            then (request :: acts ++ [Yield finishStop], Returned)
            else
              let '(acts', next) := afterStream vars in
              match next with
              | Exit outcome => (request :: acts ++ acts', outcome)
              | Again results =>
                  let '(rest, outcome) :=
                    executeLoop later (v_executionId vars) (Some results) (S clock') in
                  (request :: acts ++ acts' ++ rest, outcome)
              end
        end
    end.

Definition executeStream (payload : StreamExecutionPayload)
    (responses : list Response) : list Action * Outcome :=
  executeLoop responses (payload_executionId payload) (payload_toolResults payload) 0.

End Invocation.
End Engine.

Arguments Yield {Body} event.
Arguments Fetch {Body} url body.
Arguments CallOnResourceUpdate {Body} name value.
Arguments mkConfig {Body} toolHandlers url buildBody onResourceUpdate errorContext.
Arguments toolHandlers {Body} _.
Arguments url {Body} _.
Arguments buildBody {Body} _ _ _.
Arguments onResourceUpdate {Body} _.
Arguments errorContext {Body} _.
Arguments handleEvent {Body} config vars event.
Arguments processLine {Body} parseEvent config vars line.
Arguments processLines {Body} parseEvent config vars lines.
Arguments readLoop {Body} parseEvent {DecoderState} decode config signal
  reads decoder buffer vars clock.
Arguments runServerTool {Body} config tc.
Arguments hasHandler {Body} config tc.
Arguments serverTools {Body} config pending.
Arguments clientTools {Body} config pending.
Arguments serverResults {Body} config pending.
Arguments afterStream {Body} config vars.
Arguments executeLoop {Body} parseEvent {DecoderState} newTextDecoder decode
  config signal responses executionId toolResults clock.
Arguments executeStream {Body} parseEvent {DecoderState} newTextDecoder decode
  config signal payload responses.

(** ** session.ts *)

Definition nl : string := String newline EmptyString.

(** How the iteration of an async iterable ends: it completes, or it
    throws ([Some message] for an [Error], [None] for anything else). *)
Inductive SourceEnd : Type :=
| Completes
| Fails (message : option string).

Section Encoder.

(** [JSON.stringify] *)
Variable stringify : StreamEvent -> string.
(** [TextEncoder.encode] *)
Variable encode : string -> list Byte.byte.

(** The chunks [toSSEStream] enqueues before it closes the stream. *)
Definition toSSEStream (events : list StreamEvent) (ending : SourceEnd)
  : list (list Byte.byte) :=
  map (fun event => encode ("data: " +:+ stringify event +:+ nl +:+ nl)) events
  ++ match ending with
     | Completes => [encode ("data: [DONE]" +:+ nl +:+ nl)]
     | Fails message =>
         [encode ("data: "
                  +:+ stringify (createInternalErrorEvent (default "Unknown error" message))
                  +:+ nl +:+ nl)]
     end.

End Encoder.

Module Session.

(** Modelled from the spec: the [Resource] class (resource.js is not among
    the sources); the facade uses its name and its update method. *)
Record Resource : Type := mkResource {
  res_name : string;
  res_onUpdate : Value -> CallbackOutcome
}.

(** The body [AgentSession.executeStream] builds: each key is set only
    when its value is defined. *)
Record SessionBody : Type := mkSessionBody {
  body_triggerName : option string;
  body_input : option Value;
  body_executionId : option string;
  body_toolResults : option (list ToolResult)
}.

Record SessionPayload : Type := mkSessionPayload {
  sp_triggerName : option string;
  sp_input : option Value;
  sp_executionId : option string;
  sp_toolResults : option (list ToolResult)
}.

(** The constructor's loop [this.resourceMap.set(resource.name, resource)]. *)
Definition makeResourceMap (resources : list Resource) : gmap string Resource :=
  foldl (fun m resource => <[res_name resource := resource]> m) ∅ resources.

(** [handleResourceUpdate]: the update calls it makes (resource, value),
    and whether it returns. *)
Definition handleResourceUpdate (resourceMap : gmap string Resource)
    (name : string) (value : Value) : list (Resource * Value) * CallbackOutcome :=
  match resourceMap !! name with
  | Some resource => ([(resource, value)], res_onUpdate resource value)
  | None => ([], CbReturns)
  end.

(** The configuration [AgentSession.executeStream] passes on. *)
Definition sessionConfig (baseUrl sessionId : string)
    (tools : ToolHandlers) (resourceMap : gmap string Resource)
    (payload : SessionPayload) : StreamExecutionConfig SessionBody :=
  mkConfig tools
    (baseUrl +:+ "/api/agent-sessions/" +:+ sessionId +:+ "/trigger")
    (fun executionId toolResults =>
       mkSessionBody (sp_triggerName payload) (sp_input payload) executionId toolResults)
    (Some (fun name value => snd (handleResourceUpdate resourceMap name value)))
    (Some "Failed to trigger").

(** The update calls the facade makes during an invocation: one
    [handleResourceUpdate] per invocation of the callback. *)
Definition resourceCalls (resourceMap : gmap string Resource)
    (log : list (Action SessionBody)) : list (Resource * Value) :=
  flat_map (fun action =>
              match action with
              | CallOnResourceUpdate name value =>
                  fst (handleResourceUpdate resourceMap name value)
              | _ => []
              end) log.

(** The two requests [AgentSession.execute] accepts. *)
Inductive SessionRequest : Type :=
| TriggerRequest (triggerName : string) (input : option Value)
| ContinueRequest (executionId : string) (toolResults : list ToolResult).

(** The payload [execute] passes to the private [executeStream]. *)
Definition requestPayload (request : SessionRequest) : SessionPayload :=
  match request with
  | ContinueRequest executionId toolResults =>
      mkSessionPayload None None (Some executionId) (Some toolResults)
  | TriggerRequest triggerName input =>
      mkSessionPayload (Some triggerName) input None None
  end.

(** [AgentSession.execute] for a session with the given identifier, tools
    and resources. *)
Definition execute (parseEvent : string -> option StreamEvent)
    {DecoderState : Type} (newTextDecoder : DecoderState)
    (decode : DecoderState -> list Byte.byte -> DecoderState * string)
    (baseUrl sessionId : string) (tools : ToolHandlers)
    (resources : list Resource) (request : SessionRequest) (signal : option nat)
    (responses : list Response) : list (Action SessionBody) * Outcome :=
  executeStream parseEvent newTextDecoder decode
    (sessionConfig baseUrl sessionId tools (makeResourceMap resources)
       (requestPayload request))
    signal
    (mkPayload (sp_executionId (requestPayload request))
       (sp_toolResults (requestPayload request)))
    responses.

End Session.

(** ** workers.ts *)

Inductive WorkerBody : Type :=
| WorkerStart (input : option Value)
| WorkerContinue (executionId : option string) (toolResults : option (list ToolResult)).

(** The two methods of [WorkersApi] as they call [executeStream]. *)
Module WorkersApi.

Definition executeUrl (baseUrl agentId : string) : string :=
  baseUrl +:+ "/api/agents/" +:+ agentId +:+ "/execute".

Definition executeConfig (baseUrl agentId : string) (input : Value)
    (tools : ToolHandlers) : StreamExecutionConfig WorkerBody :=
  mkConfig tools (executeUrl baseUrl agentId)
    (fun executionId toolResults =>
       if negb (truthy executionId) then WorkerStart (Some input)
       else WorkerContinue executionId toolResults)
    None (Some "Failed to execute worker").

Definition continueConfig (baseUrl agentId : string) (executionId : string)
    (toolResults : list ToolResult) (tools : ToolHandlers)
  : StreamExecutionConfig WorkerBody :=
  mkConfig tools (executeUrl baseUrl agentId)
    (fun execId results =>
       WorkerContinue (Some (default executionId execId))
         (Some (default toolResults results)))
    None (Some "Failed to continue worker").

End WorkersApi.

(** The inline loop of workers.ts. *)
Module Worker.
Section Worker.

Variable parseEvent : string -> option StreamEvent.
Variable DecoderState : Type.
Variable newTextDecoder : DecoderState.
Variable decode : DecoderState -> list Byte.byte -> DecoderState * string.

Record WorkerStreamConfig : Type := mkWorkerStreamConfig {
baseUrl : string;
agentId : string;
toolHandlers : ToolHandlers
}.

Record WorkerPayload : Type := mkWorkerPayload {
input : option Value;
payload_executionId : option string;
payload_toolResults : option (list ToolResult)
}.

Variable streamConfig : WorkerStreamConfig.
Variable payload : WorkerPayload.
Variable signal : option nat.

Definition isStart : bool := bool_decide (is_Some (input payload)).

Definition handleEvent (vars : LoopVars) (event : StreamEvent)
: list (Action WorkerBody) * LoopVars :=
let vars1 :=
  match event with
  | Start id =>
      if truthy id
      then mkLoopVars id (v_pendingToolCalls vars) (v_continueLoop vars)
      else vars
  | _ => vars
  end in
match event with
| ToolRequest calls =>
    ([], mkLoopVars (v_executionId vars1) (Some calls) (v_continueLoop vars1))
| Finish reason _ =>
    if String.eqb reason "tool-calls" && bool_decide (is_Some (v_pendingToolCalls vars1))
    then ([], vars1)
    else ([Yield event],
          mkLoopVars (v_executionId vars1) (v_pendingToolCalls vars1) false)
| _ => ([Yield event], vars1)
end.

Definition processLine (vars : LoopVars) (line : string)
: list (Action WorkerBody) * LoopVars :=
if isDataLine line then
  match parseEvent (slice 6 line) with
  | Some event => handleEvent vars event
  | None => ([], vars)
  end
else ([], vars).

Fixpoint processLines (vars : LoopVars) (lines : list string)
: list (Action WorkerBody) * LoopVars :=
match lines with
| [] => ([], vars)
| line :: rest =>
    let '(acts, vars') := processLine vars line in
    let '(acts', vars'') := processLines vars' rest in
    (acts ++ acts', vars'')
end.

Fixpoint readLoop (reads : list ReadResult) (decoder : DecoderState)
  (buffer : string) (vars : LoopVars) (clock : nat)
: list (Action WorkerBody) * ReadEnd :=
if aborted signal clock then ([Yield finishStop], Stopped Returned)
else
  match reads with
  | [] => ([], StreamDone vars (S clock))
  | ReadAbortError :: _ => ([Yield finishStop], Stopped Returned)
  | ReadError err :: _ => ([], Stopped (Threw err))
  | ReadChunk value :: rest =>
      let '(decoder', text) := decode decoder value in
      let '(lines, buffer') := takeLines buffer text in
      let '(acts, vars') := processLines vars lines in
      let '(acts', ending) := readLoop rest decoder' buffer' vars' (S clock) in
      (acts ++ acts', ending)
  end.

(** The results of the inline loop are built without [workerId]. *)
Definition runServerTool (tc : PendingToolCall) : ToolResult :=
let outcome :=
  match toolHandlers streamConfig !! tc_toolName tc with
  | Some handler => handler (tc_args tc)
  | None => ThrowsError "handler is not a function"
  end in
match outcome with
| Resolves result =>
    mkToolResult (tc_toolCallId tc) (tc_toolName tc) (Some result) None
      (tc_outputVariable tc) (tc_blockIndex tc) (tc_thread tc) None
| ThrowsError message =>
    mkToolResult (tc_toolCallId tc) (tc_toolName tc) None (Some message)
      (tc_outputVariable tc) (tc_blockIndex tc) (tc_thread tc) None
| ThrowsOther =>
    mkToolResult (tc_toolCallId tc) (tc_toolName tc) None
      (Some "Tool execution failed")
      (tc_outputVariable tc) (tc_blockIndex tc) (tc_thread tc) None
end.

Definition hasHandler (tc : PendingToolCall) : Prop :=
is_Some (toolHandlers streamConfig !! tc_toolName tc).

Definition serverTools (pending : list PendingToolCall) : list PendingToolCall :=
filter hasHandler pending.

Definition clientTools (pending : list PendingToolCall) : list PendingToolCall :=
filter (fun tc => ~ hasHandler tc) pending.

Definition serverResults (pending : list PendingToolCall) : list ToolResult :=
map runServerTool (serverTools pending).

Definition toolOutputEvent (tr : ToolResult) : StreamEvent :=
if truthy (tr_error tr)
then ToolOutputError (tr_toolCallId tr) (default EmptyString (tr_error tr))
else ToolOutputAvailable (tr_toolCallId tr) (default VUndefined (tr_result tr)).

Definition afterStream (vars : LoopVars) : list (Action WorkerBody) * Next :=
match v_pendingToolCalls vars with
| Some (tc :: tcs) =>
    let pending := tc :: tcs in
    let results := serverResults pending in
    let outputs := map (fun tr => Yield (toolOutputEvent tr)) results in
    match clientTools pending with
    | _ :: _ =>
        if negb (truthy (v_executionId vars)) then
          (outputs ++
             [Yield (createInternalErrorEvent
                       "Missing executionId for client-tool-request")],
           Exit Returned)
        else
          let id := default EmptyString (v_executionId vars) in
          (outputs ++
             [Yield (ClientToolRequest id (clientTools pending)
                       (match results with [] => None | _ :: _ => Some results end));
              Yield (Finish "client-tool-calls" (Some id))],
           Exit Returned)
    | [] =>
        (outputs, if v_continueLoop vars then Again results else Exit Returned)
    end
| _ => ([], Exit Returned)
end.

Fixpoint executeLoop (responses : list Response) (executionId : option string)
  (toolResults : option (list ToolResult)) (clock : nat)
: list (Action WorkerBody) * Outcome :=
if aborted signal clock then ([Yield finishStop], Returned)
else
  let body :=
    if isStart && negb (truthy executionId)
    then WorkerStart (input payload)
    else WorkerContinue executionId toolResults in
  let request :=
    Fetch (baseUrl streamConfig +:+ "/api/agents/" +:+ agentId streamConfig
           +:+ "/execute") body in
  match responses with
  | [] => ([request], Threw "fetch failed")
  | FetchAbortError :: _ => ([request; Yield finishStop], Returned)
  | FetchError err :: _ => ([request], Threw err)
  | NotOk status apiError :: _ =>
      ([request; Yield (createApiErrorEvent status (apiError "Failed to execute worker"))],
       Returned)
  | OkNoBody :: _ =>
      ([request; Yield (createInternalErrorEvent "Response body is not readable")],
       Returned)
  | OkBody reads :: later =>
      let '(acts, ending) :=
        readLoop reads newTextDecoder EmptyString
          (mkLoopVars executionId None true) (S clock) in
      match ending with
      | Stopped outcome => (request :: acts, outcome)
      | StreamDone vars clock' =>
          if aborted signal clock'
          then (request :: acts ++ [Yield finishStop], Returned)
          else
            let '(acts', next) := afterStream vars in
            match next with
            | Exit outcome => (request :: acts ++ acts', outcome)
            | Again results =>
                let '(rest, outcome) :=
                  executeLoop later (v_executionId vars) (Some results) (S clock') in
                (request :: acts ++ acts' ++ rest, outcome)
            end
      end
  end.

Definition executeWorkerStream (responses : list Response)
: list (Action WorkerBody) * Outcome :=
executeLoop responses (payload_executionId payload) (payload_toolResults payload) 0.

End Worker.
End Worker.

Arguments Worker.executeWorkerStream parseEvent {DecoderState} newTextDecoder decode
  streamConfig payload signal responses.
Arguments Worker.executeLoop parseEvent {DecoderState} newTextDecoder decode
  streamConfig payload signal responses executionId toolResults clock.
Arguments Worker.readLoop parseEvent {DecoderState} decode signal
  reads decoder buffer vars clock.

(** ** internal-tools.ts and skills.ts of the core package *)

Module InternalTools.

Definition OCTAVUS_INTERNAL_PREFIX : string := "octavus_".

(** The object [OCTAVUS_INTERNAL_TOOLS], as its entries in the order of
    the declaration. *)
Definition OCTAVUS_INTERNAL_TOOLS : list (string * string) :=
  [("SKILL_READ", "octavus_skill_read");
   ("SKILL_LIST", "octavus_skill_list");
   ("SKILL_RUN", "octavus_skill_run");
   ("CODE_RUN", "octavus_code_run");
   ("FILE_WRITE", "octavus_file_write");
   ("FILE_READ", "octavus_file_read");
   ("GENERATE_IMAGE", "octavus_generate_image")].

(** [OCTAVUS_INTERNAL_TOOLS.KEY]; an absent key would read undefined. *)
Definition internalTool (key : string) : option string :=
  snd <$> List.find (fun entry => String.eqb (fst entry) key) OCTAVUS_INTERNAL_TOOLS.

Definition isOctavusInternalTool (toolName : string) : bool :=
  startsWith toolName OCTAVUS_INTERNAL_PREFIX.

(** The object [OCTAVUS_SKILL_TOOLS]: six of the entries above. *)
Definition OCTAVUS_SKILL_TOOLS : list (string * option string) :=
  [("SKILL_READ", internalTool "SKILL_READ");
   ("SKILL_LIST", internalTool "SKILL_LIST");
   ("SKILL_RUN", internalTool "SKILL_RUN");
   ("CODE_RUN", internalTool "CODE_RUN");
   ("FILE_WRITE", internalTool "FILE_WRITE");
   ("FILE_READ", internalTool "FILE_READ")].

(** [Object.values(OCTAVUS_SKILL_TOOLS).includes(toolName)] *)
Definition isOctavusSkillTool (toolName : string) : bool :=
  existsb (fun value =>
             match value with
             | Some name => String.eqb name toolName
             | None => false
             end)
    (map snd OCTAVUS_SKILL_TOOLS).

(** [getSkillSlugFromToolCall]; [args] is the argument object as the map
    of its keys, [None] when it is undefined. *)
Definition getSkillSlugFromToolCall (toolName : string)
    (args : option (gmap string Value)) : option string :=
  match args with
  | None => None
  | Some fields =>
      if negb (isOctavusSkillTool toolName) then None
      else match fields !! "skill" with
           | Some (VStr slug) => Some slug
           | _ => None
           end
  end.

End InternalTools.

(** ** Observers used to state the properties *)

Section Observers.

Variable parseEvent : string -> option StreamEvent.
Variable DecoderState : Type.
Variable newTextDecoder : DecoderState.
Variable decode : DecoderState -> list Byte.byte -> DecoderState * string.

(** The complete lines the read loop hands to its [for] loop, chunk after
    chunk, when every read gives a chunk. *)
Fixpoint frameLines (chunks : list (list Byte.byte)) (decoder : DecoderState)
    (buffer : string) : list string :=
  match chunks with
  | [] => []
  | value :: rest =>
      let '(decoder', text) := decode decoder value in
      let '(lines, buffer') := takeLines buffer text in
      lines ++ frameLines rest decoder' buffer'
  end.

(** The payloads of the data records among some lines. *)
Definition dataRecords (lines : list string) : list string :=
  map (slice 6) (List.filter isDataLine lines).

(** Frame decoder: the data records of a chunked response body. *)
Definition sseRecords (chunks : list (list Byte.byte)) : list string :=
  dataRecords (frameLines chunks newTextDecoder EmptyString).

(** Frame decoder and event validator: the events of a response body. *)
Definition parsedEvents (chunks : list (list Byte.byte)) : list StreamEvent :=
  omap parseEvent (sseRecords chunks).

(** The text a streaming decoder produces for a list of chunks. *)
Fixpoint decodedText (chunks : list (list Byte.byte)) (decoder : DecoderState)
  : string :=
  match chunks with
  | [] => EmptyString
  | value :: rest =>
      let '(decoder', text) := decode decoder value in
      text +:+ decodedText rest decoder'
  end.

End Observers.

Arguments frameLines {DecoderState} decode chunks decoder buffer.
Arguments sseRecords {DecoderState} newTextDecoder decode chunks.
Arguments parsedEvents parseEvent {DecoderState} newTextDecoder decode chunks.
Arguments decodedText {DecoderState} decode chunks decoder.

(** The decoder and the buffer the read loop holds after some chunks. *)
Fixpoint frameState {DecoderState : Type}
    (decode : DecoderState -> list Byte.byte -> DecoderState * string)
    (chunks : list (list Byte.byte)) (decoder : DecoderState) (buffer : string)
  : DecoderState * string :=
  match chunks with
  | [] => (decoder, buffer)
  | value :: rest =>
      let '(decoder', text) := decode decoder value in
      let '(lines, buffer') := takeLines buffer text in
      frameState decode rest decoder' buffer'
  end.

(** Lines put back together: each followed by a newline, then the
    remainder. *)
Definition unlines (lines : list string) (rest : string) : string :=
  fold_right (fun line text => line +:+ nl +:+ text) rest lines.

(** The events of a stream handled one after the other. *)
Fixpoint handleEvents {Body : Type} (config : StreamExecutionConfig Body)
    (vars : LoopVars) (events : list StreamEvent) : list (Action Body) * LoopVars :=
  match events with
  | [] => ([], vars)
  | event :: rest =>
      let '(acts, vars') := handleEvent config vars event in
      let '(acts', vars'') := handleEvents config vars' rest in
      (acts ++ acts', vars'')
  end.

(** The call list of the last tool-request event, [pending] if none. *)
Fixpoint lastToolRequest (pending : option (list PendingToolCall))
    (events : list StreamEvent) : option (list PendingToolCall) :=
  match events with
  | [] => pending
  | ToolRequest calls :: rest => lastToolRequest (Some calls) rest
  | _ :: rest => lastToolRequest pending rest
  end.

(** The execution identifier known after some events: that of the last
    start event that carries a non-empty one, [current] if none. *)
Fixpoint capturedExecutionId (current : option string)
    (events : list StreamEvent) : option string :=
  match events with
  | [] => current
  | Start id :: rest =>
      capturedExecutionId (if truthy id then id else current) rest
  | _ :: rest => capturedExecutionId current rest
  end.

Definition isFetch {Body : Type} (action : Action Body) : bool :=
  match action with Fetch _ _ => true | _ => false end.

Definition isFinish (event : StreamEvent) : bool :=
  match event with Finish _ _ => true | _ => false end.

Definition isClientToolRequest (event : StreamEvent) : bool :=
  match event with ClientToolRequest _ _ _ => true | _ => false end.

Definition isToolRequest (event : StreamEvent) : bool :=
  match event with ToolRequest _ => true | _ => false end.

(** The events of a log, in order. *)
Definition yielded {Body : Type} (log : list (Action Body)) : list StreamEvent :=
  omap (fun action => match action with Yield event => Some event | _ => None end) log.

(** The request bodies of a log, in order. *)
Definition requested {Body : Type} (log : list (Action Body)) : list Body :=
  omap (fun action => match action with Fetch _ body => Some body | _ => None end) log.

(** Pending calls none of which carries a worker identifier. *)
Definition withoutWorkerId (pending : option (list PendingToolCall)) : Prop :=
  match pending with
  | Some calls => Forall (fun tc => tc_workerId tc = None) calls
  | None => True
  end.

(** Whether handling some events forwards a finish event; [pending] tells
    whether a tool request was seen before them.  A finish is held back
    exactly when its reason is tool-calls and a tool request was seen. *)
Fixpoint forwardsFinish (pending : bool) (events : list StreamEvent) : bool :=
  match events with
  | [] => false
  | ToolRequest _ :: rest => forwardsFinish true rest
  | Finish reason _ :: rest =>
      if String.eqb reason "tool-calls" && pending
      then forwardsFinish pending rest
      else true
  | _ :: rest => forwardsFinish pending rest
  end.

(** The events that can take part in a terminal signal. *)
Definition isTerminalPart (event : StreamEvent) : bool :=
  isFinish event || isClientToolRequest event.

(** A sequence of events closed by exactly one terminal signal: a single
    finish, or the pair client-tool-request, finish{client-tool-calls}. *)
Definition ClosedByOneTerminal (events : list StreamEvent) : Prop :=
  exists before,
    Forall (fun event => isTerminalPart event = false) before
    /\ ((exists reason id, events = before ++ [Finish reason id])
        \/ (exists id calls results id',
              events = before ++ [ClientToolRequest id calls results;
                                  Finish "client-tool-calls" id'])).

(** The same, with the error event the engine makes as a third way to
    close the sequence. *)
Definition ClosedByOneSignal (events : list StreamEvent) : Prop :=
  exists before,
    Forall (fun event => isTerminalPart event = false) before
    /\ ((exists reason id, events = before ++ [Finish reason id])
        \/ (exists id calls results id',
              events = before ++ [ClientToolRequest id calls results;
                                  Finish "client-tool-calls" id'])
        \/ (exists status message, events = before ++ [createApiErrorEvent status message])
        \/ (exists message, events = before ++ [createInternalErrorEvent message])).

(** A stream as the service is expected to send it: one finish event, the
    last event; no client-tool-request; when a tool request came before
    the finish, its call list is not empty and the finish asks for the
    tool calls. *)
Definition OrderlyStream (events : list StreamEvent) : Prop :=
  exists body reason id,
    events = body ++ [Finish reason id]
    /\ Forall (fun event => isTerminalPart event = false) body
    /\ match lastToolRequest None body with
       | None => True
       | Some calls => calls <> [] /\ reason = "tool-calls"
       end.

(** A response whose body, when there is one, is read to its end without
    failure and holds an orderly stream. *)
Definition OrderlyResponse (parseEvent : string -> option StreamEvent)
    {DecoderState : Type} (newTextDecoder : DecoderState)
    (decode : DecoderState -> list Byte.byte -> DecoderState * string)
    (response : Response) : Prop :=
  match response with
  | OkBody reads =>
      exists chunks,
        reads = map ReadChunk chunks
        /\ OrderlyStream (parsedEvents parseEvent newTextDecoder decode chunks)
  | _ => True
  end.

(** ** A concrete platform for examples

    Byte-transparent text coding, a finite table as event parser. *)
Module Demo.

Definition encode (text : string) : list Byte.byte := list_byte_of_string text.

Definition decode (decoder : unit) (value : list Byte.byte) : unit * string :=
  (decoder, string_of_list_byte value).

Definition parseTable (table : list (string * StreamEvent)) (payload : string)
  : option StreamEvent :=
  snd <$> List.find (fun entry => String.eqb (fst entry) payload) table.

(** A serializer for the events of the examples, inverse to the table. *)
Definition stringify (event : StreamEvent) : string :=
  match event with
  | Start (Some id) => "{start " +:+ id +:+ "}"
  | Finish reason _ => "{finish " +:+ reason +:+ "}"
  | OtherEvent _ (VStr text) => "{text " +:+ text +:+ "}"
  | _ => "{}"
  end.

(** One SSE record as the service sends it. *)
Definition record (payload : string) : string :=
  "data: " +:+ payload +:+ nl +:+ nl.

Definition call (id name : string) (workerId : option string) : PendingToolCall :=
  mkPendingToolCall id name (VObj []) None None None workerId.

Definition callA : PendingToolCall := call "call-a" "lookup" None.
Definition callB : PendingToolCall := call "call-b" "confirm" None.
Definition callW : PendingToolCall := call "call-w" "lookup" (Some "worker-1").

Definition table : list (string * StreamEvent) :=
  [ ("{start e1}", Start (Some "e1"));
    ("{text hello}", OtherEvent "text-delta" (VStr "hello"));
    ("{tool-request}", ToolRequest []);
    ("{tool-request A}", ToolRequest [callA]);
    ("{tool-request B}", ToolRequest [callB]);
    ("{tool-request W}", ToolRequest [callW]);
    ("{tool-request A B}", ToolRequest [callA; callB]);
    ("{finish tool-calls}", Finish "tool-calls" None);
    ("{finish stop}", Finish "stop" None);
    ("{resource-update X 1}", ResourceUpdate "X" (VNum 1)) ].

Definition parseEvent : string -> option StreamEvent := parseTable table.

Definition lookupHandler : ToolHandler := fun _ => Resolves (VStr "found").
Definition failingHandler : ToolHandler := fun _ => ThrowsError EmptyString.

(** The messages of the engine's [TypeError]s. *)
Definition typeError (name : string) (args : Value) : string :=
  if String.eqb name "__proto__" then "handler is not a function"
  else "Cannot convert undefined or null to object".

(** [{lookup: lookupHandler}], [{lookup: failingHandler}] and [{}]. *)
Definition tools : ToolHandlers := plainObject typeError {[ "lookup" := lookupHandler ]}.
Definition failingTools : ToolHandlers :=
  plainObject typeError {[ "lookup" := failingHandler ]}.
Definition noTools : ToolHandlers := plainObject typeError ∅.

(** A configuration whose request body is the state it is built from. *)
Definition config (handlers : ToolHandlers)
    (callback : option (string -> Value -> CallbackOutcome))
  : StreamExecutionConfig (option string * option (list ToolResult)) :=
  mkConfig handlers "/trigger" (fun executionId toolResults => (executionId, toolResults))
    callback None.

(** A resource whose update method throws. *)
Definition brokenResource : Session.Resource :=
  Session.mkResource "X" (fun _ => CbThrows).

(** A session with that resource, triggered by [go]. *)
Definition brokenSession : StreamExecutionConfig Session.SessionBody :=
  Session.sessionConfig "https://api" "s1" noTools
    (Session.makeResourceMap [brokenResource])
    (Session.mkSessionPayload (Some "go") None None None).

Definition body (payloads : list string) : Response :=
  OkBody (map (fun payload => ReadChunk (encode (record payload))) payloads).

Definition run (handlers : ToolHandlers)
    (callback : option (string -> Value -> CallbackOutcome))
    (signal : option nat) (executionId : option string) (responses : list Response) :=
  executeStream parseEvent tt decode (config handlers callback) signal
    (mkPayload executionId None) responses.

(** The table without the call that carries a worker identifier. *)
Definition plainTable : list (string * StreamEvent) :=
  [ ("{start e1}", Start (Some "e1"));
    ("{tool-request A}", ToolRequest [callA]);
    ("{finish tool-calls}", Finish "tool-calls" None);
    ("{finish stop}", Finish "stop" None) ].

Definition plainParseEvent : string -> option StreamEvent := parseTable plainTable.

(** A codec that also knows one internal-error event. *)
Definition errorParseEvent : string -> option StreamEvent :=
  parseTable (("{error boom}", createInternalErrorEvent "boom") :: table).

Definition errorStringify (event : StreamEvent) : string :=
  match event with
  | ErrorEvent _ message _ => "{error " +:+ message +:+ "}"
  | _ => stringify event
  end.

(** A call whose tool name is also the name of a method every object
    inherits, and the streams that request it. *)
Definition callT : PendingToolCall := call "call-t" "toString" None.

Definition inheritedTable : list (string * StreamEvent) :=
  [ ("{start e1}", Start (Some "e1"));
    ("{tool-request T}", ToolRequest [callT]);
    ("{tool-request A T}", ToolRequest [callA; callT]);
    ("{finish tool-calls}", Finish "tool-calls" None);
    ("{finish stop}", Finish "stop" None) ].

Definition inheritedParseEvent : string -> option StreamEvent :=
  parseTable inheritedTable.

(** Two resources of the same name, and one of another name. *)
Definition firstX : Session.Resource := Session.mkResource "X" (fun _ => CbReturns).
Definition otherY : Session.Resource := Session.mkResource "Y" (fun _ => CbReturns).

End Demo.

(** * Properties *)

(** ** Text *)

Lemma omap_cons_match {A B : Type} (f : A -> option B) (x : A) (l : list A) :
  omap f (x :: l) = match f x with Some y => y :: omap f l | None => omap f l end.
Proof. reflexivity. Qed.

Lemma append_nil_l (t : string) : EmptyString +:+ t = t.
Proof. reflexivity. Qed.

Lemma append_cons (c : ascii) (s t : string) :
  String c s +:+ t = String c (s +:+ t).
Proof. reflexivity. Qed.

Lemma append_nil_r (s : string) : s +:+ EmptyString = s.
Proof.
  induction s as [|c s IH]; [reflexivity|].
  rewrite append_cons, IH. reflexivity.
Qed.

Lemma append_assoc (s t u : string) : (s +:+ t) +:+ u = s +:+ (t +:+ u).
Proof.
  induction s as [|c s IH]; [reflexivity|].
  rewrite !append_cons, IH. reflexivity.
Qed.

Lemma split_newline_nonempty (s : string) : split_newline s <> [].
Proof.
  induction s as [|c s IH]; simpl; [discriminate|].
  destruct (Ascii.eqb c newline); [discriminate|].
  destruct (split_newline s); discriminate.
Qed.

Lemma pop_cons_nonempty {A : Type} (x : A) (l : list A) :
  l <> [] -> pop (x :: l) = (x :: fst (pop l), snd (pop l)).
Proof.
  intros Hne. destruct l as [|y l]; [congruence|].
  change (pop (x :: y :: l)) with (let '(front, last) := pop (y :: l) in (x :: front, last)).
  destruct (pop (y :: l)). reflexivity.
Qed.

Lemma takeLines_buffer (buffer text : string) :
  takeLines buffer text = takeLines EmptyString (buffer +:+ text).
Proof. reflexivity. Qed.

Lemma takeLines_newline (s : string) :
  takeLines EmptyString (String newline s)
  = (EmptyString :: fst (takeLines EmptyString s), snd (takeLines EmptyString s)).
Proof.
  unfold takeLines. rewrite !append_nil_l. simpl split_newline.
  rewrite pop_cons_nonempty by apply split_newline_nonempty.
  destruct (pop (split_newline s)); reflexivity.
Qed.

Lemma takeLines_char (c : ascii) (s : string) :
  Ascii.eqb c newline = false ->
  takeLines EmptyString (String c s) = prependChar c (takeLines EmptyString s).
Proof.
  intros Hc. unfold takeLines, prependChar. rewrite !append_nil_l.
  simpl split_newline. rewrite Hc.
  pose proof (split_newline_nonempty s) as Hne.
  destruct (split_newline s) as [|piece pieces]; [congruence|].
  destruct pieces as [|piece' pieces]; [reflexivity|].
  rewrite (pop_cons_nonempty (String c piece)) by discriminate.
  rewrite (pop_cons_nonempty piece) by discriminate.
  destruct (pop (piece' :: pieces)); reflexivity.
Qed.

(** Appending text continues the split where the remainder left off. *)
Lemma takeLines_app (s t : string) :
  takeLines EmptyString (s +:+ t)
  = (fst (takeLines EmptyString s)
       ++ fst (takeLines (snd (takeLines EmptyString s)) t),
     snd (takeLines (snd (takeLines EmptyString s)) t)).
Proof.
  induction s as [|c s IH].
  - rewrite append_nil_l. cbn [takeLines fst snd app].
    change (takeLines EmptyString EmptyString) with (@nil string, EmptyString).
    cbn [fst snd app]. destruct (takeLines EmptyString t); reflexivity.
  - rewrite append_cons. destruct (Ascii.eqb c newline) eqn:Hc.
    + apply Ascii.eqb_eq in Hc. subst c. rewrite !takeLines_newline, IH.
      reflexivity.
    + rewrite !takeLines_char by assumption. rewrite IH.
      destruct (takeLines EmptyString s) as [lines rest].
      unfold prependChar. cbn [fst snd].
      destruct lines as [|line lines]; cbn [fst snd app].
      * rewrite (takeLines_buffer (String c rest)), append_cons.
        rewrite takeLines_char by assumption.
        rewrite <- takeLines_buffer. unfold prependChar.
        destruct (takeLines rest t) as [lines' rest'].
        destruct lines'; reflexivity.
      * reflexivity.
Qed.

Lemma takeLines_step (buffer s t : string) :
  takeLines buffer (s +:+ t)
  = (fst (takeLines buffer s) ++ fst (takeLines (snd (takeLines buffer s)) t),
     snd (takeLines (snd (takeLines buffer s)) t)).
Proof.
  rewrite (takeLines_buffer buffer (s +:+ t)), <- append_assoc, takeLines_app.
  rewrite <- (takeLines_buffer buffer s). reflexivity.
Qed.

Lemma takeLines_no_newline (s : string) :
  hasNewline s = false -> takeLines EmptyString s = ([], s).
Proof.
  induction s as [|c s IH]; [reflexivity|].
  cbn [hasNewline]. intros [Hc Hs]%orb_false_elim.
  rewrite takeLines_char, IH by assumption. reflexivity.
Qed.

(** The remainder kept in the buffer never holds a newline. *)
Lemma takeLines_rest (buffer text : string) :
  hasNewline (snd (takeLines buffer text)) = false.
Proof.
  rewrite takeLines_buffer. generalize (buffer +:+ text) as s. clear.
  induction s as [|c s IH]; [reflexivity|].
  destruct (Ascii.eqb c newline) eqn:Hc.
  - apply Ascii.eqb_eq in Hc. subst c. rewrite takeLines_newline. exact IH.
  - rewrite takeLines_char by assumption. unfold prependChar.
    destruct (takeLines EmptyString s) as [[|line lines] rest]; cbn [fst snd] in *.
    + cbn [hasNewline]. rewrite Hc, IH. reflexivity.
    + exact IH.
Qed.

Section FrameDecoder.

Context {DecoderState : Type}.
Variable decode : DecoderState -> list Byte.byte -> DecoderState * string.

(** The lines the loop emits are the complete lines of the whole decoded
    text: where the chunks end plays no role. *)
Lemma frameLines_text (chunks : list (list Byte.byte)) (decoder : DecoderState)
    (buffer : string) :
  hasNewline buffer = false ->
  frameLines decode chunks decoder buffer
  = fst (takeLines buffer (decodedText decode chunks decoder)).
Proof.
  revert decoder buffer.
  induction chunks as [|value rest IH]; intros decoder buffer Hbuf.
  - cbn [frameLines decodedText]. rewrite takeLines_buffer, append_nil_r.
    rewrite takeLines_no_newline by assumption. reflexivity.
  - cbn [frameLines decodedText].
    destruct (decode decoder value) as [decoder' text].
    rewrite takeLines_step.
    pose proof (takeLines_rest buffer text) as Hrest.
    destruct (takeLines buffer text) as [lines buffer'].
    cbn [fst snd] in *. rewrite IH by assumption. reflexivity.
Qed.

(** The contract of a streaming decoder: decoding is a homomorphism from
    byte sequences to text, the state carrying what is incomplete. *)
Hypothesis decode_nil : forall decoder, decode decoder [] = (decoder, EmptyString).
Hypothesis decode_app : forall decoder a b,
  decode decoder (a ++ b)
  = (fst (decode (fst (decode decoder a)) b),
     snd (decode decoder a) +:+ snd (decode (fst (decode decoder a)) b)).

Lemma decodedText_concat (chunks : list (list Byte.byte)) (decoder : DecoderState) :
  decodedText decode chunks decoder = snd (decode decoder (concat chunks)).
Proof using decode_nil decode_app.
  revert decoder. induction chunks as [|value rest IH]; intros decoder.
  - cbn [decodedText concat]. rewrite decode_nil. reflexivity.
  - cbn [decodedText concat]. rewrite decode_app. cbn [snd].
    destruct (decode decoder value) as [decoder' text]. cbn [fst snd].
    rewrite IH. reflexivity.
Qed.

(** C6. Chunk-boundary invariance of the SSE frame decoding loop: two
    sequences of byte chunks whose concatenations decode to the same text
    give the same sequence of data records. *)
Theorem chunk_boundary_invariance (newTextDecoder : DecoderState)
    (chunks1 chunks2 : list (list Byte.byte)) :
  snd (decode newTextDecoder (concat chunks1))
  = snd (decode newTextDecoder (concat chunks2)) ->
  sseRecords newTextDecoder decode chunks1 = sseRecords newTextDecoder decode chunks2.
Proof using decode_nil decode_app.
  intros Htext. unfold sseRecords.
  rewrite !frameLines_text by reflexivity.
  rewrite !decodedText_concat, Htext. reflexivity.
Qed.

End FrameDecoder.

Lemma string_of_list_byte_app (a b : list Byte.byte) :
  string_of_list_byte (a ++ b) = string_of_list_byte a +:+ string_of_list_byte b.
Proof.
  unfold string_of_list_byte.
  induction a as [|x a IH]; [reflexivity|].
  cbn [app map string_of_list_ascii]. rewrite IH. reflexivity.
Qed.

Lemma Demo_decode_nil (decoder : unit) : Demo.decode decoder [] = (decoder, EmptyString).
Proof. reflexivity. Qed.

Lemma Demo_decode_app (decoder : unit) (a b : list Byte.byte) :
  Demo.decode decoder (a ++ b)
  = (fst (Demo.decode (fst (Demo.decode decoder a)) b),
     snd (Demo.decode decoder a) +:+ snd (Demo.decode (fst (Demo.decode decoder a)) b)).
Proof. unfold Demo.decode. cbn [fst snd]. rewrite string_of_list_byte_app. reflexivity. Qed.

Lemma Demo_decode_encode (text : string) :
  Demo.decode tt (Demo.encode text) = (tt, text).
Proof.
  unfold Demo.decode, Demo.encode. rewrite string_of_list_byte_of_string. reflexivity.
Qed.

(** Two records cut in the middle of a line and of the blank-line
    separator, against the same bytes in one chunk. *)
Lemma chunk_boundary_invariance_witness :
  sseRecords tt Demo.decode
    [Demo.encode ("data: {start e1}" +:+ nl +:+ nl +:+ "data: {fin");
     Demo.encode ("ish stop}" +:+ nl);
     Demo.encode nl]
  = sseRecords tt Demo.decode
      [Demo.encode ("data: {start e1}" +:+ nl +:+ nl +:+ "data: {finish stop}" +:+ nl +:+ nl)].
Proof.
  apply (chunk_boundary_invariance Demo.decode Demo_decode_nil Demo_decode_app).
  vm_compute. reflexivity.
Defined.

(** ** Encoding then decoding *)

Lemma hasNewline_app (s t : string) :
  hasNewline (s +:+ t) = hasNewline s || hasNewline t.
Proof.
  induction s as [|c s IH]; [reflexivity|].
  rewrite append_cons. cbn [hasNewline]. rewrite IH, orb_assoc. reflexivity.
Qed.

Lemma takeLines_line (s t : string) :
  hasNewline s = false ->
  takeLines EmptyString (s +:+ String newline t)
  = (s :: fst (takeLines EmptyString t), snd (takeLines EmptyString t)).
Proof.
  induction s as [|c s IH]; intros Hs.
  - rewrite append_nil_l. apply takeLines_newline.
  - cbn [hasNewline] in Hs. apply orb_false_elim in Hs as [Hc Hs].
    rewrite append_cons, takeLines_char, IH by assumption. reflexivity.
Qed.

(** One encoded record is one line and one blank line, nothing held back. *)
Lemma takeLines_record (payload : string) :
  hasNewline payload = false ->
  takeLines EmptyString ("data: " +:+ payload +:+ nl +:+ nl)
  = (["data: " +:+ payload; EmptyString], EmptyString).
Proof.
  intros Hp. rewrite <- append_assoc.
  change (nl +:+ nl) with (String newline nl).
  rewrite takeLines_line by (rewrite hasNewline_app, Hp; reflexivity).
  reflexivity.
Qed.

Lemma isDataLine_record (payload : string) :
  isDataLine ("data: " +:+ payload) = negb (String.eqb payload "[DONE]").
Proof. reflexivity. Qed.

Lemma slice_record (payload : string) : slice 6 ("data: " +:+ payload) = payload.
Proof. reflexivity. Qed.

Section RoundTrip.

Variable stringify : StreamEvent -> string.
Variable encode : string -> list Byte.byte.
Variable parseEvent : string -> option StreamEvent.
Context {DecoderState : Type}.
Variable newTextDecoder : DecoderState.
Variable decode : DecoderState -> list Byte.byte -> DecoderState * string.

(** Decoding what the encoder produced gives the text back. *)
Hypothesis decode_encode : forall text,
  decode newTextDecoder (encode text) = (newTextDecoder, text).

Lemma frameLines_toSSEStream (events : list StreamEvent) :
  Forall (fun event => hasNewline (stringify event) = false) events ->
  frameLines decode (toSSEStream stringify encode events Completes)
    newTextDecoder EmptyString
  = flat_map (fun event => ["data: " +:+ stringify event; EmptyString]) events
    ++ ["data: [DONE]"; EmptyString].
Proof using decode_encode.
  unfold toSSEStream. induction 1 as [|event events Hevent _ IH].
  - cbn [map app frameLines flat_map]. rewrite decode_encode.
    change ("data: [DONE]" +:+ nl +:+ nl) with ("data: " +:+ "[DONE]" +:+ nl +:+ nl).
    rewrite (takeLines_record "[DONE]") by reflexivity. reflexivity.
  - cbn [map app frameLines flat_map]. rewrite decode_encode.
    rewrite takeLines_record by assumption. rewrite IH. reflexivity.
Qed.

Lemma dataRecords_toSSEStream (events : list StreamEvent) :
  Forall (fun event => stringify event <> "[DONE]") events ->
  dataRecords
    (flat_map (fun event => ["data: " +:+ stringify event; EmptyString]) events
     ++ ["data: [DONE]"; EmptyString])
  = map stringify events.
Proof.
  unfold dataRecords. rewrite List.filter_app, map_app.
  change (map (slice 6) (List.filter isDataLine ["data: [DONE]"; EmptyString]))
    with (@nil string).
  rewrite app_nil_r.
  induction 1 as [|event events Hdone _ IH]; [reflexivity|].
  cbn [flat_map app List.filter map].
  rewrite isDataLine_record.
  destruct (String.eqb_spec (stringify event) "[DONE]") as [|_]; [contradiction|].
  cbn [negb]. change (isDataLine EmptyString) with false. cbn [map].
  rewrite slice_record, IH. reflexivity.
Qed.

Lemma omap_parse_stringify (events : list StreamEvent) :
  Forall (fun event => parseEvent (stringify event) = Some event) events ->
  omap parseEvent (map stringify events) = events.
Proof.
  induction 1 as [|event events Hparse _ IH]; [reflexivity|].
  cbn [map]. rewrite omap_cons_match, Hparse, IH. reflexivity.
Qed.

(** C7. Round trip: the events encoded by [toSSEStream] and decoded by
    the frame decoder and the event validator are the original events;
    the sentinel record gives no record and no event. *)
Theorem sse_round_trip (events : list StreamEvent) :
  Forall (fun event =>
            hasNewline (stringify event) = false
            /\ stringify event <> "[DONE]"
            /\ parseEvent (stringify event) = Some event) events ->
  sseRecords newTextDecoder decode (toSSEStream stringify encode events Completes)
  = map stringify events
  /\ parsedEvents parseEvent newTextDecoder decode
       (toSSEStream stringify encode events Completes)
     = events.
Proof using decode_encode.
  intros Hevents.
  assert (Hrecords :
    sseRecords newTextDecoder decode (toSSEStream stringify encode events Completes)
    = map stringify events).
  { unfold sseRecords. rewrite frameLines_toSSEStream.
    - apply dataRecords_toSSEStream.
      eapply Forall_impl; [eassumption|]. cbn. tauto.
    - eapply Forall_impl; [eassumption|]. cbn. tauto. }
  split; [exact Hrecords|].
  unfold parsedEvents. rewrite Hrecords. apply omap_parse_stringify.
  eapply Forall_impl; [eassumption|]. cbn. tauto.
Qed.

End RoundTrip.

(** Two events through the byte-transparent codec and the table parser. *)
Lemma sse_round_trip_witness :
  sseRecords tt Demo.decode
    (toSSEStream Demo.stringify Demo.encode
       [Start (Some "e1"); Finish "stop" None] Completes)
  = map Demo.stringify [Start (Some "e1"); Finish "stop" None]
  /\ parsedEvents Demo.parseEvent tt Demo.decode
       (toSSEStream Demo.stringify Demo.encode
          [Start (Some "e1"); Finish "stop" None] Completes)
     = [Start (Some "e1"); Finish "stop" None].
Proof.
  apply (sse_round_trip Demo.stringify Demo.encode Demo.parseEvent tt Demo.decode
           Demo_decode_encode).
  repeat constructor; vm_compute; congruence.
Defined.

(** ** The read loop *)

Lemma aborted_mono (signal : option nat) (m n : nat) :
  aborted signal n = false -> m <= n -> aborted signal m = false.
Proof.
  destruct signal as [k|]; cbn; [|reflexivity].
  rewrite !Nat.leb_gt. lia.
Qed.

Section EngineFacts.

Context {Body : Type}.
Variable parseEvent : string -> option StreamEvent.
Context {DecoderState : Type}.
Variable newTextDecoder : DecoderState.
Variable decode : DecoderState -> list Byte.byte -> DecoderState * string.
Variable config : StreamExecutionConfig Body.
Variable signal : option nat.

Lemma handleEvents_app (vars : LoopVars) (events events' : list StreamEvent) :
  handleEvents config vars (events ++ events')
  = (fst (handleEvents config vars events)
       ++ fst (handleEvents config (snd (handleEvents config vars events)) events'),
     snd (handleEvents config (snd (handleEvents config vars events)) events')).
Proof.
  revert vars. induction events as [|event events IH]; intros vars.
  - cbn [app handleEvents fst snd].
    destruct (handleEvents config vars events'); reflexivity.
  - cbn [app handleEvents]. destruct (handleEvent config vars event) as [acts vars'].
    rewrite IH. destruct (handleEvents config vars' events) as [acts' vars''].
    cbn [fst snd]. rewrite app_assoc. reflexivity.
Qed.

(** The lines of a chunk are handled as the events they parse to. *)
Lemma processLines_handleEvents (vars : LoopVars) (lines : list string) :
  processLines parseEvent config vars lines
  = handleEvents config vars (omap parseEvent (dataRecords lines)).
Proof.
  revert vars. induction lines as [|line lines IH]; intros vars; [reflexivity|].
  cbn [processLines]. unfold processLine, dataRecords. cbn [List.filter].
  destruct (isDataLine line).
  - cbn [map]. rewrite omap_cons_match.
    destruct (parseEvent (slice 6 line)) as [event|].
    + cbn [handleEvents]. destruct (handleEvent config vars event) as [acts vars'].
      rewrite IH. reflexivity.
    + rewrite IH. unfold dataRecords.
      destruct (handleEvents _ _ _); reflexivity.
  - rewrite IH. unfold dataRecords. destruct (handleEvents _ _ _); reflexivity.
Qed.

Lemma dataRecords_app (lines lines' : list string) :
  dataRecords (lines ++ lines') = dataRecords lines ++ dataRecords lines'.
Proof. unfold dataRecords. rewrite List.filter_app, map_app. reflexivity. Qed.

(** With no cancellation and no failing read, the read loop handles the
    events of the body in order and reports the end of the stream. *)
Lemma readLoop_chunks (chunks : list (list Byte.byte)) (decoder : DecoderState)
    (buffer : string) (vars : LoopVars) (clock : nat) :
  aborted signal (clock + length chunks) = false ->
  readLoop parseEvent decode config signal (map ReadChunk chunks) decoder buffer vars clock
  = (fst (handleEvents config vars
            (omap parseEvent (dataRecords (frameLines decode chunks decoder buffer)))),
     StreamDone
       (snd (handleEvents config vars
               (omap parseEvent (dataRecords (frameLines decode chunks decoder buffer)))))
       (S (clock + length chunks))).
Proof.
  revert decoder buffer vars clock.
  induction chunks as [|value rest IH]; intros decoder buffer vars clock Hsignal.
  - cbn [map readLoop length frameLines] in *. rewrite Nat.add_0_r in *.
    rewrite Hsignal. reflexivity.
  - cbn [map readLoop length frameLines] in *.
    rewrite (aborted_mono signal clock _ Hsignal) by lia.
    destruct (decode decoder value) as [decoder' text].
    destruct (takeLines buffer text) as [lines buffer'].
    rewrite processLines_handleEvents.
    rewrite dataRecords_app, omap_app, handleEvents_app.
    destruct (handleEvents config vars (omap parseEvent (dataRecords lines)))
      as [acts vars'].
    rewrite (IH decoder' buffer' vars' (S clock))
      by (rewrite <- Hsignal; f_equal; lia).
    cbn [fst snd].
    replace (S clock + length rest) with (clock + S (length rest)) by lia.
    reflexivity.
Qed.

(** *** What the events of a stream leave in the loop variables *)

Lemma handleEvent_pending (vars : LoopVars) (event : StreamEvent) :
  v_pendingToolCalls (snd (handleEvent config vars event))
  = lastToolRequest (v_pendingToolCalls vars) [event].
Proof.
  unfold handleEvent.
  destruct event as [id|reason id|errorType message status|calls|id calls results|id output|id error|name value|type payload];
    cbn [lastToolRequest snd v_pendingToolCalls]; try reflexivity.
  - destruct (truthy id); reflexivity.
  - destruct (_ && _); reflexivity.
  - destruct (onResourceUpdate config) as [callback|]; [|reflexivity].
    destruct (callback name value); reflexivity.
Qed.

Lemma handleEvent_executionId (vars : LoopVars) (event : StreamEvent) :
  v_executionId (snd (handleEvent config vars event))
  = capturedExecutionId (v_executionId vars) [event].
Proof.
  unfold handleEvent.
  destruct event as [id|reason id|errorType message status|calls|id calls results|id output|id error|name value|type payload];
    cbn [capturedExecutionId snd v_executionId]; try reflexivity.
  - destruct (truthy id); reflexivity.
  - destruct (_ && _); reflexivity.
  - destruct (onResourceUpdate config) as [callback|]; [|reflexivity].
    destruct (callback name value); reflexivity.
Qed.

Lemma lastToolRequest_cons (pending : option (list PendingToolCall))
    (event : StreamEvent) (events : list StreamEvent) :
  lastToolRequest pending (event :: events)
  = lastToolRequest (lastToolRequest pending [event]) events.
Proof. destruct event; reflexivity. Qed.

Lemma capturedExecutionId_cons (current : option string)
    (event : StreamEvent) (events : list StreamEvent) :
  capturedExecutionId current (event :: events)
  = capturedExecutionId (capturedExecutionId current [event]) events.
Proof. destruct event; reflexivity. Qed.

Lemma handleEvents_pending (vars : LoopVars) (events : list StreamEvent) :
  v_pendingToolCalls (snd (handleEvents config vars events))
  = lastToolRequest (v_pendingToolCalls vars) events.
Proof.
  revert vars. induction events as [|event events IH]; intros vars; [reflexivity|].
  cbn [handleEvents]. rewrite lastToolRequest_cons, <- handleEvent_pending.
  destruct (handleEvent config vars event) as [acts vars']. cbn [snd].
  rewrite <- IH. destruct (handleEvents config vars' events); reflexivity.
Qed.

Lemma handleEvents_executionId (vars : LoopVars) (events : list StreamEvent) :
  v_executionId (snd (handleEvents config vars events))
  = capturedExecutionId (v_executionId vars) events.
Proof.
  revert vars. induction events as [|event events IH]; intros vars; [reflexivity|].
  cbn [handleEvents]. rewrite capturedExecutionId_cons, <- handleEvent_executionId.
  destruct (handleEvent config vars event) as [acts vars']. cbn [snd].
  rewrite <- IH. destruct (handleEvents config vars' events); reflexivity.
Qed.

(** Handling events issues no request. *)
Lemma handleEvent_no_fetch (vars : LoopVars) (event : StreamEvent) :
  Forall (fun action => isFetch action = false) (fst (handleEvent config vars event)).
Proof.
  unfold handleEvent.
  destruct event as [id|reason id|errorType message status|calls|id calls results|id output|id error|name value|type payload];
    cbn [fst]; repeat constructor.
  - destruct (_ && _); cbn [fst]; repeat constructor.
  - destruct (onResourceUpdate config) as [callback|]; [|repeat constructor].
    destruct (callback name value); repeat constructor.
Qed.

Lemma handleEvents_no_fetch (vars : LoopVars) (events : list StreamEvent) :
  Forall (fun action => isFetch action = false) (fst (handleEvents config vars events)).
Proof.
  revert vars. induction events as [|event events IH]; intros vars; [constructor|].
  cbn [handleEvents]. pose proof (handleEvent_no_fetch vars event) as Hevent.
  destruct (handleEvent config vars event) as [acts vars'].
  specialize (IH vars'). destruct (handleEvents config vars' events).
  cbn [fst] in *. apply Forall_app; split; assumption.
Qed.

End EngineFacts.

(** ** One iteration of the continuation loop *)

Section Rounds.

Context {Body : Type}.
Variable parseEvent : string -> option StreamEvent.
Context {DecoderState : Type}.
Variable newTextDecoder : DecoderState.
Variable decode : DecoderState -> list Byte.byte -> DecoderState * string.
Variable config : StreamExecutionConfig Body.
Variable signal : option nat.

Local Abbreviation events_of chunks := (parsedEvents parseEvent newTextDecoder decode chunks).
Local Abbreviation loop := (executeLoop parseEvent newTextDecoder decode config signal).

(** An iteration whose response is a readable stream of [n] chunks polls
    the signal at [clock], ..., [clock + n + 2].  When none of these polls
    sees it aborted, the iteration is: the request, the events of the
    stream, then what follows the stream. *)
Lemma executeLoop_round (chunks : list (list Byte.byte)) (later : list Response)
    (executionId : option string) (toolResults : option (list ToolResult))
    (clock : nat) :
  aborted signal (clock + length chunks + 2) = false ->
  loop (OkBody (map ReadChunk chunks) :: later) executionId toolResults clock
  = let request := Fetch (url config) (buildBody config executionId toolResults) in
    let handled :=
      handleEvents config (mkLoopVars executionId None true) (events_of chunks) in
    let after := afterStream config (snd handled) in
    match snd after with
    | Exit outcome => (request :: fst handled ++ fst after, outcome)
    | Again results =>
        let rest :=
          loop later (v_executionId (snd handled)) (Some results)
            (clock + length chunks + 3) in
        (request :: fst handled ++ fst after ++ fst rest, snd rest)
    end.
Proof.
  intros Hsignal. cbn [executeLoop].
  rewrite (aborted_mono signal clock _ Hsignal) by lia.
  rewrite readLoop_chunks
    by (apply (aborted_mono signal _ _ Hsignal); lia).
  replace (S (S clock + length chunks)) with (clock + length chunks + 2) by lia.
  rewrite Hsignal. cbv zeta. unfold parsedEvents, sseRecords.
  destruct (afterStream config _) as [acts' next]. cbn [fst snd].
  destruct next as [outcome|results]; [reflexivity|].
  replace (S (clock + length chunks + 2)) with (clock + length chunks + 3) by lia.
  destruct (executeLoop _ _ _ _ _ later _ _ _); reflexivity.
Qed.

(** C5. Cancellation signalled before any request: the state machine
    yields the single event finish{stop} and issues no request. *)
Theorem cancelled_before_request (payload : StreamExecutionPayload)
    (responses : list Response) :
  executeStream parseEvent newTextDecoder decode config (Some 0) payload responses
  = ([Yield finishStop], Returned).
Proof. destruct responses; reflexivity. Qed.

Lemma clientTools_cons_handled (tc : PendingToolCall) (tcs : list PendingToolCall) :
  is_Some (toolHandlers config !! tc_toolName tc) ->
  clientTools config (tc :: tcs) = clientTools config tcs.
Proof.
  intros Hhandler. unfold clientTools.
  apply filter_cons_False. unfold hasHandler.
  intros Hnot. apply Hnot. exact Hhandler.
Qed.

Lemma clientTools_cons_unhandled (tc : PendingToolCall) (tcs : list PendingToolCall) :
  toolHandlers config !! tc_toolName tc = None ->
  clientTools config (tc :: tcs) = tc :: clientTools config tcs.
Proof.
  intros Hhandler. unfold clientTools.
  apply filter_cons_True. unfold hasHandler. rewrite Hhandler.
  intros [h Hh]. discriminate.
Qed.

Lemma serverTools_cons_handled (tc : PendingToolCall) (tcs : list PendingToolCall) :
  is_Some (toolHandlers config !! tc_toolName tc) ->
  serverTools config (tc :: tcs) = tc :: serverTools config tcs.
Proof. intros Hhandler. unfold serverTools. apply filter_cons_True. exact Hhandler. Qed.

Lemma serverTools_cons_unhandled (tc : PendingToolCall) (tcs : list PendingToolCall) :
  toolHandlers config !! tc_toolName tc = None ->
  serverTools config (tc :: tcs) = serverTools config tcs.
Proof.
  intros Hhandler. unfold serverTools. apply filter_cons_False.
  unfold hasHandler. rewrite Hhandler. intros [h Hh]. discriminate.
Qed.

Lemma toolOutputEvent_cases (tr : ToolResult) :
  (exists output, toolOutputEvent tr = ToolOutputAvailable (tr_toolCallId tr) output)
  \/ (exists error, toolOutputEvent tr = ToolOutputError (tr_toolCallId tr) error).
Proof. unfold toolOutputEvent. destruct (truthy (tr_error tr)); eauto. Qed.

Lemma runServerTool_toolCallId (tc : PendingToolCall) :
  tr_toolCallId (runServerTool config tc) = tc_toolCallId tc.
Proof.
  unfold runServerTool. destruct (toolHandlers config !! tc_toolName tc) as [h|];
    [destruct (h (tc_args tc))|]; reflexivity.
Qed.

(** What follows the stream when a call has no handler and the execution
    identifier is known: the outputs of the server tools, the pause. *)
Lemma afterStream_pause (vars : LoopVars) (pending : list PendingToolCall)
    (id : string) :
  v_pendingToolCalls vars = Some pending ->
  clientTools config pending <> [] ->
  v_executionId vars = Some id -> id <> EmptyString ->
  afterStream config vars
  = (map (fun tr => Yield (toolOutputEvent tr)) (serverResults config pending)
       ++ [Yield (ClientToolRequest id (clientTools config pending)
                    (match serverResults config pending with
                     | [] => None
                     | _ :: _ => Some (serverResults config pending)
                     end));
           Yield (Finish "client-tool-calls" (Some id))],
     Exit Returned).
Proof.
  intros Hpending Hclient Hid Hne. unfold afterStream. rewrite Hpending, Hid.
  destruct pending as [|tc tcs]; [contradiction|].
  destruct (clientTools config (tc :: tcs)) as [|c cs] eqn:Hc; [contradiction|].
  cbn [truthy default]. destruct (String.eqb_spec id EmptyString); [contradiction|].
  reflexivity.
Qed.

(** The same without a known execution identifier: an internal error. *)
Lemma afterStream_missing_id (vars : LoopVars) (pending : list PendingToolCall) :
  v_pendingToolCalls vars = Some pending ->
  clientTools config pending <> [] ->
  truthy (v_executionId vars) = false ->
  afterStream config vars
  = (map (fun tr => Yield (toolOutputEvent tr)) (serverResults config pending)
       ++ [Yield (createInternalErrorEvent "Missing executionId for client-tool-request")],
     Exit Returned).
Proof.
  intros Hpending Hclient Hid. unfold afterStream. rewrite Hpending, Hid.
  destruct pending as [|tc tcs]; [contradiction|].
  destruct (clientTools config (tc :: tcs)) as [|c cs] eqn:Hc; [contradiction|].
  reflexivity.
Qed.

(** When every call has a handler: the outputs, then the loop goes on
    with the results if no finish was forwarded. *)
Lemma afterStream_all_handled (vars : LoopVars) (pending : list PendingToolCall) :
  v_pendingToolCalls vars = Some pending ->
  pending <> [] ->
  clientTools config pending = [] ->
  afterStream config vars
  = (map (fun tr => Yield (toolOutputEvent tr)) (serverResults config pending),
     if v_continueLoop vars then Again (serverResults config pending)
     else Exit Returned).
Proof.
  intros Hpending Hne Hclient. unfold afterStream. rewrite Hpending.
  destruct pending as [|tc tcs]; [contradiction|].
  rewrite Hclient. reflexivity.
Qed.

(** A round trip whose stream leaves two calls pending, A for which the
    read [toolHandlers[toolName]] finds a handler and B for which it finds
    nothing, own or inherited, with a known execution identifier and no
    cancellation observed: after the events of the stream the engine yields
    the tool output of A, one client-tool-request holding only B with the
    result of A as server result, and finish{client-tool-calls}; the
    request of the round trip is the only one.  [executeStream] is the loop
    entered at poll 0. *)
Theorem pause_for_client_tool (chunks : list (list Byte.byte))
    (later : list Response) (payload : StreamExecutionPayload)
    (A B : PendingToolCall) (calls : list PendingToolCall)
    (handler : ToolHandler) (id : string) :
  aborted signal (length chunks + 2) = false ->
  lastToolRequest None (events_of chunks) = Some calls ->
  calls = [A; B] \/ calls = [B; A] ->
  toolHandlers config !! tc_toolName A = Some handler ->
  toolHandlers config !! tc_toolName B = None ->
  capturedExecutionId (payload_executionId payload) (events_of chunks) = Some id ->
  id <> EmptyString ->
  let streamed :=
    fst (handleEvents config (mkLoopVars (payload_executionId payload) None true)
           (events_of chunks)) in
  let resultA := runServerTool config A in
  let log :=
    Fetch (url config)
      (buildBody config (payload_executionId payload) (payload_toolResults payload))
    :: streamed
    ++ [Yield (toolOutputEvent resultA);
        Yield (ClientToolRequest id [B] (Some [resultA]));
        Yield (Finish "client-tool-calls" (Some id))] in
  executeStream parseEvent newTextDecoder decode config signal payload
    (OkBody (map ReadChunk chunks) :: later)
  = (log, Returned)
  /\ tr_toolCallId resultA = tc_toolCallId A
  /\ ((exists output,
         toolOutputEvent resultA = ToolOutputAvailable (tc_toolCallId A) output)
      \/ (exists error,
            toolOutputEvent resultA = ToolOutputError (tc_toolCallId A) error))
  /\ requested log
     = [buildBody config (payload_executionId payload) (payload_toolResults payload)].
Proof.
  intros Hsignal Hpending Hcalls HA HB Hid Hne streamed resultA log.
  assert (Hclient : clientTools config calls = [B]).
  { destruct Hcalls; subst calls.
    - rewrite clientTools_cons_handled by eauto.
      rewrite clientTools_cons_unhandled by assumption. reflexivity.
    - rewrite clientTools_cons_unhandled by assumption.
      rewrite clientTools_cons_handled by eauto. reflexivity. }
  assert (Hserver : serverResults config calls = [resultA]).
  { unfold serverResults. destruct Hcalls; subst calls.
    - rewrite serverTools_cons_handled by eauto.
      rewrite serverTools_cons_unhandled by assumption. reflexivity.
    - rewrite serverTools_cons_unhandled by assumption.
      rewrite serverTools_cons_handled by eauto. reflexivity. }
  split; [|split; [|split]].
  - unfold executeStream. rewrite executeLoop_round by exact Hsignal.
    cbv zeta.
    rewrite (afterStream_pause _ calls id).
    + cbn [fst snd]. rewrite Hclient, Hserver. reflexivity.
    + rewrite handleEvents_pending. exact Hpending.
    + rewrite Hclient. discriminate.
    + rewrite handleEvents_executionId. exact Hid.
    + exact Hne.
  - apply runServerTool_toolCallId.
  - rewrite <- (runServerTool_toolCallId A). apply toolOutputEvent_cases.
  - subst log. unfold requested. rewrite omap_cons_match, omap_app.
    pose proof (handleEvents_no_fetch config
                  (mkLoopVars (payload_executionId payload) None true)
                  (events_of chunks)) as Hstream.
    fold streamed in Hstream.
    assert (Hnone : omap (fun action : Action Body =>
                            match action with Fetch _ body => Some body | _ => None end)
                      streamed = []).
    { clear -Hstream. induction Hstream as [|action acts Haction _ IH]; [reflexivity|].
      rewrite omap_cons_match. destruct action; try discriminate; exact IH. }
    rewrite Hnone. reflexivity.
Qed.

(** A round trip that leaves pending a call for which the read
    [toolHandlers[toolName]] finds nothing, own or inherited, while no
    execution identifier is known (none supplied, none captured from a
    start event), no cancellation observed: after the events of the
    stream and the outputs of the server tools the engine yields the
    internal-error event and returns; it emits no client-tool-request,
    so any such event in the log was forwarded from the stream.  The
    loop state is arbitrary: this is any round trip of an invocation. *)
Theorem pause_without_execution_id (chunks : list (list Byte.byte))
    (later : list Response) (executionId : option string)
    (toolResults : option (list ToolResult)) (clock : nat)
    (calls : list PendingToolCall) :
  aborted signal (clock + length chunks + 2) = false ->
  lastToolRequest None (events_of chunks) = Some calls ->
  clientTools config calls <> [] ->
  truthy (capturedExecutionId executionId (events_of chunks)) = false ->
  let streamed :=
    fst (handleEvents config (mkLoopVars executionId None true) (events_of chunks)) in
  let outputs :=
    map (fun tr => Yield (toolOutputEvent tr)) (serverResults config calls) in
  loop (OkBody (map ReadChunk chunks) :: later) executionId toolResults clock
  = (Fetch (url config) (buildBody config executionId toolResults)
     :: streamed ++ outputs
     ++ [Yield (createInternalErrorEvent "Missing executionId for client-tool-request")],
     Returned)
  /\ Forall (fun event => isClientToolRequest event = false)
       (yielded (outputs ++
          [Yield (createInternalErrorEvent "Missing executionId for client-tool-request")])).
Proof.
  intros Hsignal Hpending Hclient Hid streamed outputs. split.
  - rewrite executeLoop_round by exact Hsignal. cbv zeta.
    rewrite (afterStream_missing_id _ calls).
    + cbn [fst snd]. reflexivity.
    + rewrite handleEvents_pending. exact Hpending.
    + exact Hclient.
    + rewrite handleEvents_executionId. exact Hid.
  - subst outputs. unfold yielded. rewrite omap_app. apply Forall_app. split.
    + induction (serverResults config calls) as [|tr trs IH]; [constructor|].
      cbn [map]. rewrite omap_cons_match. constructor; [|exact IH].
      destruct (toolOutputEvent_cases tr) as [[output ->]|[error ->]]; reflexivity.
    + repeat constructor.
Qed.

End Rounds.

(** A start event, a text event, the request for A and B, the finish that
    asks for the tool calls; [lookup] has a handler, [confirm] has none. *)
Lemma pause_for_client_tool_witness :
  Demo.run Demo.tools None None None
    [Demo.body ["{start e1}"; "{text hello}"; "{tool-request A B}"; "{finish tool-calls}"]]
  = ([Fetch "/trigger" (None, None);
      Yield (Start (Some "e1"));
      Yield (OtherEvent "text-delta" (VStr "hello"));
      Yield (ToolOutputAvailable "call-a" (VStr "found"));
      Yield (ClientToolRequest "e1" [Demo.callB]
               (Some [mkToolResult "call-a" "lookup" (Some (VStr "found")) None
                        None None None None]));
      Yield (Finish "client-tool-calls" (Some "e1"))],
     Returned).
Proof.
  refine (proj1 (pause_for_client_tool Demo.parseEvent tt Demo.decode
                   (Demo.config Demo.tools None) None
                   (map (fun payload => Demo.encode (Demo.record payload))
                      ["{start e1}"; "{text hello}"; "{tool-request A B}";
                       "{finish tool-calls}"])
                   [] (mkPayload None None) Demo.callA Demo.callB
                   [Demo.callA; Demo.callB] Demo.lookupHandler "e1"
                   _ _ _ _ _ _ _)).
  - reflexivity.
  - vm_compute. reflexivity.
  - left. reflexivity.
  - vm_compute. reflexivity.
  - vm_compute. reflexivity.
  - vm_compute. reflexivity.
  - discriminate.
Defined.

(** The same request without any start event: no execution identifier. *)
Lemma pause_without_execution_id_witness :
  executeLoop Demo.parseEvent tt Demo.decode (Demo.config Demo.tools None) None
    [Demo.body ["{tool-request A B}"; "{finish tool-calls}"]] None None 0
  = ([Fetch "/trigger" (None, None);
      Yield (ToolOutputAvailable "call-a" (VStr "found"));
      Yield (createInternalErrorEvent "Missing executionId for client-tool-request")],
     Returned).
Proof.
  refine (proj1 (pause_without_execution_id Demo.parseEvent tt Demo.decode
                   (Demo.config Demo.tools None) None
                   (map (fun payload => Demo.encode (Demo.record payload))
                      ["{tool-request A B}"; "{finish tool-calls}"])
                   [] None None 0 [Demo.callA; Demo.callB] _ _ _ _)).
  - reflexivity.
  - vm_compute. reflexivity.
  - vm_compute. discriminate.
  - vm_compute. reflexivity.
Defined.

(** ** Continuation after server tools *)

Lemma yielded_app {Body : Type} (log log' : list (Action Body)) :
  yielded (log ++ log') = yielded log ++ yielded log'.
Proof. apply omap_app. Qed.

Lemma yielded_fetch {Body : Type} (url : string) (body : Body)
    (log : list (Action Body)) :
  yielded (Fetch url body :: log) = yielded log.
Proof. reflexivity. Qed.

Lemma requested_app {Body : Type} (log log' : list (Action Body)) :
  requested (log ++ log') = requested log ++ requested log'.
Proof. apply omap_app. Qed.

Lemma requested_fetch {Body : Type} (url : string) (body : Body)
    (log : list (Action Body)) :
  requested (Fetch url body :: log) = body :: requested log.
Proof. reflexivity. Qed.

Lemma requested_no_fetch {Body : Type} (log : list (Action Body)) :
  Forall (fun action => isFetch action = false) log -> requested log = [].
Proof.
  induction 1 as [|action log Haction _ IH]; [reflexivity|].
  unfold requested. rewrite omap_cons_match.
  destruct action; try discriminate; exact IH.
Qed.

Lemma yielded_outputs {Body : Type} (results : list ToolResult) :
  yielded (map (fun tr => @Yield Body (toolOutputEvent tr)) results)
  = map toolOutputEvent results.
Proof.
  induction results as [|tr trs IH]; [reflexivity|].
  cbn [map]. unfold yielded in *. rewrite omap_cons_match, IH. reflexivity.
Qed.

Lemma toolOutputEvent_not_terminal (tr : ToolResult) :
  isTerminalPart (toolOutputEvent tr) = false.
Proof. unfold toolOutputEvent. destruct (truthy (tr_error tr)); reflexivity. Qed.

Lemma forwardsFinish_cons (pending : bool) (event : StreamEvent)
    (events : list StreamEvent) :
  forwardsFinish pending (event :: events)
  = forwardsFinish pending [event]
    || forwardsFinish (pending || isToolRequest event) events.
Proof.
  destruct event as [id|reason id|errorType message status|calls|id calls results
                    |id output|id error|name value|type payload];
    cbn [forwardsFinish isToolRequest orb]; rewrite ?orb_false_r, ?orb_true_r;
    try reflexivity.
  destruct (String.eqb reason "tool-calls" && pending); reflexivity.
Qed.

Lemma lastToolRequest_is_Some (pending : option (list PendingToolCall))
    (event : StreamEvent) :
  bool_decide (is_Some (lastToolRequest pending [event]))
  = bool_decide (is_Some pending) || isToolRequest event.
Proof.
  destruct event; cbn [lastToolRequest isToolRequest];
    rewrite ?orb_false_r, ?orb_true_r; reflexivity.
Qed.

Section Continuation.

Context {Body : Type}.
Variable parseEvent : string -> option StreamEvent.
Context {DecoderState : Type}.
Variable newTextDecoder : DecoderState.
Variable decode : DecoderState -> list Byte.byte -> DecoderState * string.
Variable config : StreamExecutionConfig Body.
Variable signal : option nat.

Local Abbreviation events_of chunks := (parsedEvents parseEvent newTextDecoder decode chunks).
Local Abbreviation loop := (executeLoop parseEvent newTextDecoder decode config signal).

Lemma handleEvent_continueLoop (vars : LoopVars) (event : StreamEvent) :
  v_continueLoop (snd (handleEvent config vars event))
  = v_continueLoop vars
    && negb (forwardsFinish (bool_decide (is_Some (v_pendingToolCalls vars))) [event]).
Proof.
  unfold handleEvent.
  destruct event as [id|reason id|errorType message status|calls|id calls results
                    |id output|id error|name value|type payload];
    cbn [forwardsFinish snd v_continueLoop v_pendingToolCalls negb];
    rewrite ?andb_true_r; try reflexivity.
  - destruct (truthy id); reflexivity.
  - destruct (String.eqb reason "tool-calls"
              && bool_decide (is_Some (v_pendingToolCalls vars)));
      cbn [snd v_continueLoop negb]; rewrite ?andb_true_r, ?andb_false_r; reflexivity.
  - destruct (onResourceUpdate config) as [callback|]; [|reflexivity].
    destruct (callback name value); reflexivity.
Qed.

Lemma handleEvents_continueLoop (vars : LoopVars) (events : list StreamEvent) :
  v_continueLoop (snd (handleEvents config vars events))
  = v_continueLoop vars
    && negb (forwardsFinish (bool_decide (is_Some (v_pendingToolCalls vars))) events).
Proof.
  revert vars. induction events as [|event events IH]; intros vars.
  - cbn. rewrite andb_true_r. reflexivity.
  - cbn [handleEvents]. rewrite forwardsFinish_cons.
    pose proof (handleEvent_continueLoop vars event) as Hloop.
    pose proof (handleEvent_pending config vars event) as Hpending.
    destruct (handleEvent config vars event) as [acts vars']. cbn [snd] in *.
    specialize (IH vars'). destruct (handleEvents config vars' events) as [acts' vars''].
    cbn [snd] in *. rewrite IH, Hloop, Hpending, lastToolRequest_is_Some.
    rewrite negb_orb, andb_assoc. reflexivity.
Qed.

(** An iteration that is not cancelled at its start begins with its
    request. *)
Lemma executeLoop_starts_with_request (responses : list Response)
    (executionId : option string) (toolResults : option (list ToolResult))
    (clock : nat) :
  aborted signal clock = false ->
  exists rest,
    fst (loop responses executionId toolResults clock)
    = Fetch (url config) (buildBody config executionId toolResults) :: rest.
Proof.
  intros Hsignal. destruct responses as [|response later]; cbn [executeLoop];
    rewrite Hsignal; [eauto|].
  destruct response as [|err|status apiError| |reads]; cbn [fst]; eauto.
  destruct (readLoop _ _ _ _ _ _ _ _ _) as [acts ending].
  destruct ending as [outcome|vars clock']; cbn [fst]; eauto.
  destruct (aborted signal clock'); cbn [fst]; eauto.
  destruct (afterStream config vars) as [acts' next].
  destruct next as [outcome|results]; cbn [fst]; eauto.
  destruct (executeLoop _ _ _ _ _ later _ _ _); cbn [fst]; eauto.
Qed.

(** What follows a stream that leaves no pending call: nothing. *)
Lemma afterStream_no_pending (vars : LoopVars) :
  v_pendingToolCalls vars = None -> afterStream config vars = ([], Exit Returned).
Proof. intros Hpending. unfold afterStream. rewrite Hpending. reflexivity. Qed.

Lemma clientTools_all_handled (calls : list PendingToolCall) :
  Forall (fun tc => is_Some (toolHandlers config !! tc_toolName tc)) calls ->
  clientTools config calls = [].
Proof.
  induction 1 as [|tc tcs Htc _ IH]; [reflexivity|].
  rewrite clientTools_cons_handled by exact Htc. exact IH.
Qed.


End Continuation.



(** ** The terminal signal of an invocation *)

Lemma ClosedByOneTerminal_last (events : list StreamEvent) :
  ClosedByOneTerminal events ->
  exists reason id, last events = Some (Finish reason id).
Proof.
  intros (before & _ & [(reason & id & ->)|(id & calls & results & id' & ->)]).
  - exists reason, id. apply last_snoc.
  - exists "client-tool-calls", id'.
    change [ClientToolRequest id calls results; Finish "client-tool-calls" id']
      with ([ClientToolRequest id calls results] ++ [Finish "client-tool-calls" id']).
    rewrite app_assoc. apply last_snoc.
Qed.

(** C1 as stated fails: a readable stream that closes without a finish
    event and without a tool request.  The invocation returns, and the
    events it yielded are those of the stream: no terminal event closes
    them. *)
Lemma stream_without_finish :
  let run := Demo.run Demo.tools None None None
               [Demo.body ["{start e1}"; "{text hello}"]] in
  snd run = Returned
  /\ yielded (fst run) = [Start (Some "e1"); OtherEvent "text-delta" (VStr "hello")]
  /\ ~ ClosedByOneTerminal (yielded (fst run)).
Proof.
  cbv zeta. split; [vm_compute; reflexivity|]. split; [vm_compute; reflexivity|].
  intros (reason & id & Hlast)%ClosedByOneTerminal_last.
  vm_compute in Hlast. discriminate.
Qed.

(** A rejected request ends the invocation with the error event alone. *)
Lemma rejected_request_yields_error :
  Demo.run Demo.tools None None None [NotOk 500 (fun context => context)]
  = ([Fetch "/trigger" (None, None); Yield (createApiErrorEvent 500 "Request failed")],
     Returned).
Proof. reflexivity. Qed.

Lemma ClosedByOneSignal_prepend (before events : list StreamEvent) :
  Forall (fun event => isTerminalPart event = false) before ->
  ClosedByOneSignal events -> ClosedByOneSignal (before ++ events).
Proof.
  intros Hbefore (before' & Hbefore' & Hclosing).
  exists (before ++ before'). split; [apply Forall_app; split; assumption|].
  destruct Hclosing as [(reason & id & ->)|[(id & calls & results & id' & ->)
                       |[(status & message & ->)|(message & ->)]]];
    rewrite app_assoc; eauto 10.
Qed.

Lemma forwardsFinish_no_finish (pending : bool) (events : list StreamEvent) :
  Forall (fun event => isTerminalPart event = false) events ->
  forwardsFinish pending events = false.
Proof.
  intros Hevents. revert pending.
  induction Hevents as [|event events Hevent _ IH]; intros pending; [reflexivity|].
  destruct event; try discriminate; cbn [forwardsFinish]; apply IH.
Qed.

Section Terminal.

Context {Body : Type}.
Variable parseEvent : string -> option StreamEvent.
Context {DecoderState : Type}.
Variable newTextDecoder : DecoderState.
Variable decode : DecoderState -> list Byte.byte -> DecoderState * string.
Variable config : StreamExecutionConfig Body.

Local Abbreviation events_of chunks := (parsedEvents parseEvent newTextDecoder decode chunks).
Local Abbreviation loop := (executeLoop parseEvent newTextDecoder decode config None).

(** The events yielded while a stream is handled are events of the
    stream. *)
Lemma yielded_handleEvent (P : StreamEvent -> Prop) (vars : LoopVars)
    (event : StreamEvent) :
  P event -> Forall P (yielded (fst (handleEvent config vars event))).
Proof.
  intros Hevent. unfold handleEvent.
  destruct event as [id|reason id|errorType message status|calls|id calls results
                    |id output|id error|name value|type payload];
    cbn [fst]; try (repeat constructor; assumption).
  - destruct (_ && _); cbn [fst]; repeat constructor; assumption.
  - destruct (onResourceUpdate config) as [callback|];
      [destruct (callback name value)|]; repeat constructor; assumption.
Qed.

Lemma yielded_handleEvents (P : StreamEvent -> Prop) (vars : LoopVars)
    (events : list StreamEvent) :
  Forall P events -> Forall P (yielded (fst (handleEvents config vars events))).
Proof.
  intros Hevents. revert vars.
  induction Hevents as [|event events Hevent _ IH]; intros vars; [constructor|].
  cbn [handleEvents]. pose proof (yielded_handleEvent P vars event Hevent) as Hfirst.
  destruct (handleEvent config vars event) as [acts vars'].
  specialize (IH vars'). destruct (handleEvents config vars' events) as [acts' vars''].
  cbn [fst] in *. rewrite yielded_app. apply Forall_app. split; assumption.
Qed.

(** One round trip over an orderly stream either closes the invocation
    with one terminal signal or goes on without any terminal event. *)
Lemma orderly_round (executionId : option string) (events : list StreamEvent) :
  OrderlyStream events ->
  let handled := handleEvents config (mkLoopVars executionId None true) events in
  let after := afterStream config (snd handled) in
  (snd after = Exit Returned
   /\ ClosedByOneSignal (yielded (fst handled ++ fst after)))
  \/ (exists results,
        snd after = Again results
        /\ Forall (fun event => isTerminalPart event = false)
             (yielded (fst handled ++ fst after))).
Proof.
  intros (body & reason & id & -> & Hbody & Hrequest). cbv zeta.
  rewrite handleEvents_app.
  pose proof (yielded_handleEvents _ (mkLoopVars executionId None true) body Hbody)
    as Hstreamed.
  pose proof (handleEvents_pending config (mkLoopVars executionId None true) body)
    as Hpending.
  pose proof (handleEvents_continueLoop config (mkLoopVars executionId None true) body)
    as Hcontinue.
  cbn [v_pendingToolCalls v_continueLoop] in Hpending, Hcontinue.
  rewrite forwardsFinish_no_finish in Hcontinue by exact Hbody.
  destruct (handleEvents config (mkLoopVars executionId None true) body)
    as [streamed vars].
  cbn [fst snd andb negb] in *.
  cbn [handleEvents handleEvent]. rewrite Hpending.
  destruct (lastToolRequest None body) as [calls|] eqn:Hcalls.
  - destruct Hrequest as [Hne ->].
    cbn [String.eqb Ascii.eqb Bool.eqb andb].
    rewrite bool_decide_eq_true_2 by eauto. cbn [fst snd app]. rewrite app_nil_r.
    pose proof (toolOutputEvent_not_terminal) as Houtput.
    assert (Houtputs :
      Forall (fun event => isTerminalPart event = false)
        (yielded (map (fun tr => @Yield Body (toolOutputEvent tr))
                    (serverResults config calls)))).
    { rewrite yielded_outputs. apply Forall_map, Forall_forall. intros tr _.
      apply Houtput. }
    destruct (clientTools config calls) as [|c cs] eqn:Hclient.
    + right. rewrite (afterStream_all_handled _ _ calls) by assumption.
      rewrite Hcontinue. cbn [fst snd]. eexists. split; [reflexivity|].
      rewrite yielded_app. apply Forall_app. split; assumption.
    + left. destruct (truthy (v_executionId vars)) eqn:Hid.
      * destruct (v_executionId vars) as [id'|] eqn:Hid'; [|discriminate].
        rewrite (afterStream_pause _ _ calls id'); try assumption.
        -- cbn [fst snd]. split; [reflexivity|].
           rewrite !yielded_app. rewrite app_assoc.
           exists (yielded streamed
                   ++ yielded (map (fun tr => @Yield Body (toolOutputEvent tr))
                                 (serverResults config calls))).
           split; [apply Forall_app; split; assumption|].
           right. left. eauto 10.
        -- rewrite Hclient. discriminate.
        -- cbn [truthy] in Hid. intros ->. discriminate.
      * rewrite (afterStream_missing_id _ _ calls); try assumption.
        -- cbn [fst snd]. split; [reflexivity|].
           rewrite !yielded_app. rewrite app_assoc.
           exists (yielded streamed
                   ++ yielded (map (fun tr => @Yield Body (toolOutputEvent tr))
                                 (serverResults config calls))).
           split; [apply Forall_app; split; assumption|].
           do 3 right. eauto.
        -- rewrite Hclient. discriminate.
  - left. rewrite andb_false_r. cbn [fst snd app].
    rewrite afterStream_no_pending by reflexivity.
    split; [reflexivity|]. cbn [fst]. rewrite !app_nil_r, yielded_app.
    exists (yielded streamed). split; [assumption|]. left. eauto.
Qed.

(** C1 (amended). An invocation that returns, with no cancellation, over
    responses whose bodies are read to the end and hold orderly streams:
    the events it yields are closed by exactly one terminal signal, which
    is a single finish event, the pair client-tool-request and
    finish{client-tool-calls}, or the single error event the engine makes
    for a rejected request, an unreadable body or a missing execution
    identifier; no finish and no client-tool-request comes before it.
    Stated for the loop in any state; [executeStream] enters it at poll 0. *)
Theorem one_terminal_signal (responses : list Response)
    (executionId : option string) (toolResults : option (list ToolResult))
    (clock : nat) :
  Forall (OrderlyResponse parseEvent newTextDecoder decode) responses ->
  snd (loop responses executionId toolResults clock) = Returned ->
  ClosedByOneSignal (yielded (fst (loop responses executionId toolResults clock))).
Proof.
  intros Horderly. revert executionId toolResults clock.
  induction Horderly as [|response later Hresponse _ IH];
    intros executionId toolResults clock Hreturned.
  - discriminate.
  - destruct response as [|err|status apiError| |reads].
    + exists []. split; [constructor|]. left. exists "stop", None. reflexivity.
    + discriminate.
    + exists []. split; [constructor|]. right. right. left. eauto.
    + exists []. split; [constructor|]. do 3 right. eauto.
    + destruct Hresponse as (chunks & -> & Hstream).
      rewrite executeLoop_round in * by reflexivity. cbv zeta in *.
      destruct (orderly_round executionId _ Hstream)
        as [[Hexit Hclosed]|(results & Hagain & Hopen)]; cbv zeta in *.
      * rewrite Hexit in *. cbn [fst snd]. exact Hclosed.
      * rewrite Hagain in *. cbn [fst snd] in *.
        rewrite yielded_fetch, app_assoc, yielded_app.
        apply ClosedByOneSignal_prepend; [exact Hopen|].
        apply IH. exact Hreturned.
Qed.

End Terminal.

(** Two orderly round trips: server tools, then a plain finish. *)
Lemma one_terminal_signal_witness :
  ClosedByOneSignal
    (yielded
       (fst (executeLoop Demo.parseEvent tt Demo.decode (Demo.config Demo.tools None) None
               [Demo.body ["{start e1}"; "{tool-request A}"; "{finish tool-calls}"];
                Demo.body ["{text hello}"; "{finish stop}"]] None None 0))).
Proof.
  apply (one_terminal_signal Demo.parseEvent tt Demo.decode (Demo.config Demo.tools None)).
  - repeat constructor.
    + exists (map (fun payload => Demo.encode (Demo.record payload))
                ["{start e1}"; "{tool-request A}"; "{finish tool-calls}"]).
      split; [reflexivity|].
      exists [Start (Some "e1"); ToolRequest [Demo.callA]], "tool-calls", None.
      split; [vm_compute; reflexivity|]. split; [repeat constructor|].
      cbn. split; [discriminate|reflexivity].
    + exists (map (fun payload => Demo.encode (Demo.record payload))
                ["{text hello}"; "{finish stop}"]).
      split; [reflexivity|].
      exists [OtherEvent "text-delta" (VStr "hello")], "stop", None.
      split; [vm_compute; reflexivity|]. split; [repeat constructor|].
      exact I.
  - vm_compute. reflexivity.
Defined.

(** ** Tool handlers that fail *)

Section ToolOutputs.

Context {Body : Type}.
Variable config : StreamExecutionConfig Body.

(** A failure of the handler never leaves the engine: it becomes a result
    that carries an error string. *)
Lemma runServerTool_failure (tc : PendingToolCall) (handler : ToolHandler) :
  toolHandlers config !! tc_toolName tc = Some handler ->
  (forall result, handler (tc_args tc) <> Resolves result) ->
  exists message,
    tr_error (runServerTool config tc) = Some message
    /\ tr_result (runServerTool config tc) = None
    /\ tr_toolCallId (runServerTool config tc) = tc_toolCallId tc.
Proof.
  intros Hhandler Hfails. unfold runServerTool. rewrite Hhandler.
  destruct (handler (tc_args tc)) as [result|message|]; [|eauto..].
  destruct (Hfails result). reflexivity.
Qed.

(** The event of a result: the error when its string is not empty, the
    result otherwise. *)
Lemma toolOutputEvent_error (tr : ToolResult) (message : string) :
  tr_error tr = Some message -> message <> EmptyString ->
  toolOutputEvent tr = ToolOutputError (tr_toolCallId tr) message.
Proof.
  intros Herror Hne. unfold toolOutputEvent. rewrite Herror. cbn [truthy default].
  destruct (String.eqb_spec message EmptyString); [contradiction|reflexivity].
Qed.

Lemma toolOutputEvent_empty_error (tr : ToolResult) :
  tr_error tr = Some EmptyString ->
  toolOutputEvent tr
  = ToolOutputAvailable (tr_toolCallId tr) (default VUndefined (tr_result tr)).
Proof. intros Herror. unfold toolOutputEvent. rewrite Herror. reflexivity. Qed.

(** The outputs follow the order of the server tools among the pending
    calls. *)
Lemma serverResults_order (pending : list PendingToolCall) :
  map tr_toolCallId (serverResults config pending)
  = map tc_toolCallId (serverTools config pending).
Proof.
  unfold serverResults. induction (serverTools config pending) as [|tc tcs IH];
    [reflexivity|].
  cbn [map]. rewrite IH, runServerTool_toolCallId. reflexivity.
Qed.

End ToolOutputs.

(** ** Tool names that every object inherits *)

(** C2 fails when the tool name of B is the name of a member of
    [Object.prototype].  The handler object [{lookup: lookupHandler}] has
    no handler for [toString], yet the read [toolHandlers["toString"]]
    finds the inherited method: B is run as a server tool, its output is
    yielded beside that of A, no client-tool-request and no
    finish{client-tool-calls} is yielded, and a further request carries
    both results. *)
Theorem inherited_name_run_as_server_tool :
  own Demo.tools !! tc_toolName Demo.callT = None
  /\ executeStream Demo.inheritedParseEvent tt Demo.decode
       (Demo.config Demo.tools None) None (mkPayload None None)
       [Demo.body ["{start e1}"; "{tool-request A T}"; "{finish tool-calls}"];
        Demo.body ["{finish stop}"]]
     = ([Fetch "/trigger" (None, None);
         Yield (Start (Some "e1"));
         Yield (ToolOutputAvailable "call-a" (VStr "found"));
         Yield (ToolOutputAvailable "call-t" (VStr "[object Undefined]"));
         Fetch "/trigger"
           (Some "e1",
            Some [mkToolResult "call-a" "lookup" (Some (VStr "found")) None
                    None None None None;
                  mkToolResult "call-t" "toString" (Some (VStr "[object Undefined]")) None
                    None None None None]);
         Yield (Finish "stop" None)],
        Returned).
Proof. split; vm_compute; reflexivity. Qed.

(** C4 fails in the same way.  With the empty handler object [{}], no
    execution identifier and a pending call named [toString], the call
    has no handler of the caller's, yet it is run as a server tool: the
    engine yields no internal-error event and issues a continuation
    request without execution identifier. *)
Theorem inherited_name_hides_missing_execution_id :
  own Demo.noTools = ∅
  /\ executeStream Demo.inheritedParseEvent tt Demo.decode
       (Demo.config Demo.noTools None) None (mkPayload None None)
       [Demo.body ["{tool-request T}"; "{finish tool-calls}"];
        Demo.body ["{finish stop}"]]
     = ([Fetch "/trigger" (None, None);
         Yield (ToolOutputAvailable "call-t" (VStr "[object Undefined]"));
         Fetch "/trigger"
           (None,
            Some [mkToolResult "call-t" "toString" (Some (VStr "[object Undefined]")) None
                    None None None None]);
         Yield (Finish "stop" None)],
        Returned).
Proof. split; [reflexivity|vm_compute; reflexivity]. Qed.

(** ** An error whose message is empty *)

(** C8 fails on a handler that throws an [Error] whose message is empty
    (as [new Error()] has): the failure is caught and the result carries
    the empty error string, but the event yielded for the call is
    tool-output-available with an undefined output, not
    tool-output-error. *)
Theorem empty_error_message_reported_available :
  Demo.failingHandler (tc_args Demo.callA) = ThrowsError EmptyString
  /\ Demo.run Demo.failingTools None None None
       [Demo.body ["{start e1}"; "{tool-request A}"; "{finish tool-calls}"];
        Demo.body ["{finish stop}"]]
     = ([Fetch "/trigger" (None, None);
         Yield (Start (Some "e1"));
         Yield (ToolOutputAvailable "call-a" VUndefined);
         Fetch "/trigger"
           (Some "e1",
            Some [mkToolResult "call-a" "lookup" None (Some EmptyString)
                    None None None None]);
         Yield (Finish "stop" None)],
        Returned).
Proof. split; vm_compute; reflexivity. Qed.

(** ** Resource updates *)

Section ResourceUpdates.

Context {Body : Type}.
Variable config : StreamExecutionConfig Body.

(** With a callback that returns: one call with the name and the value of
    the event, then the event. *)
Lemma handleEvent_resource_update (vars : LoopVars) (name : string) (value : Value)
    (callback : string -> Value -> CallbackOutcome) :
  onResourceUpdate config = Some callback ->
  callback name value = CbReturns ->
  handleEvent config vars (ResourceUpdate name value)
  = ([CallOnResourceUpdate name value; Yield (ResourceUpdate name value)], vars).
Proof.
  intros Hcallback Hreturns. unfold handleEvent. rewrite Hcallback, Hreturns.
  reflexivity.
Qed.

(** With a callback that throws: the call, and the event is dropped. *)
Lemma handleEvent_resource_update_throws (vars : LoopVars) (name : string)
    (value : Value) (callback : string -> Value -> CallbackOutcome) :
  onResourceUpdate config = Some callback ->
  callback name value = CbThrows ->
  handleEvent config vars (ResourceUpdate name value)
  = ([CallOnResourceUpdate name value], vars).
Proof.
  intros Hcallback Hthrows. unfold handleEvent. rewrite Hcallback, Hthrows.
  reflexivity.
Qed.

Lemma handleEvent_resource_update_no_callback (vars : LoopVars) (name : string)
    (value : Value) :
  onResourceUpdate config = None ->
  handleEvent config vars (ResourceUpdate name value)
  = ([Yield (ResourceUpdate name value)], vars).
Proof. intros Hcallback. unfold handleEvent. rewrite Hcallback. reflexivity. Qed.

End ResourceUpdates.

(** The facade: one update call on the resource of that name, none for an
    unknown name. *)
Lemma handleResourceUpdate_known (resourceMap : gmap string Session.Resource)
    (name : string) (value : Value) (resource : Session.Resource) :
  resourceMap !! name = Some resource ->
  Session.handleResourceUpdate resourceMap name value
  = ([(resource, value)], Session.res_onUpdate resource value).
Proof. intros Hlookup. unfold Session.handleResourceUpdate. rewrite Hlookup. reflexivity. Qed.

Lemma handleResourceUpdate_unknown (resourceMap : gmap string Session.Resource)
    (name : string) (value : Value) :
  resourceMap !! name = None ->
  Session.handleResourceUpdate resourceMap name value = ([], CbReturns).
Proof. intros Hlookup. unfold Session.handleResourceUpdate. rewrite Hlookup. reflexivity. Qed.

(** C9 fails on a resource whose update method throws: the callback of the
    session is invoked once and the facade makes its one update call, but
    the exception is swallowed by the [catch] around the handling of the
    line and the resource-update event is not forwarded. *)
Theorem throwing_callback_drops_event :
  let run :=
    executeStream Demo.parseEvent tt Demo.decode Demo.brokenSession None
      (mkPayload None None)
      [Demo.body ["{resource-update X 1}"; "{finish stop}"]] in
  Demo.parseEvent "{resource-update X 1}" = Some (ResourceUpdate "X" (VNum 1))
  /\ run
     = ([Fetch "https://api/api/agent-sessions/s1/trigger"
           (Session.mkSessionBody (Some "go") None None None);
         CallOnResourceUpdate "X" (VNum 1);
         Yield (Finish "stop" None)],
        Returned)
  /\ Session.resourceCalls (Session.makeResourceMap [Demo.brokenResource]) (fst run)
     = [(Demo.brokenResource, VNum 1)]
  /\ yielded (fst run) = [Finish "stop" None].
Proof. cbv zeta. repeat split; vm_compute; reflexivity. Qed.

(** ** The inline loop of the workers against the shared loop *)

(** C10 fails on a pending call that carries a worker identifier: the
    shared loop copies it into the tool result, the inline loop of
    workers.ts leaves it out, and the bodies of the continuation requests
    differ. *)
Theorem worker_loop_drops_workerId :
  let responses :=
    [Demo.body ["{start e1}"; "{tool-request W}"; "{finish tool-calls}"];
     Demo.body ["{finish stop}"]] in
  let inline :=
    Worker.executeWorkerStream Demo.parseEvent tt Demo.decode
      (Worker.mkWorkerStreamConfig "https://api" "agent" Demo.tools)
      (Worker.mkWorkerPayload (Some (VObj [])) None None) None responses in
  let shared :=
    executeStream Demo.parseEvent tt Demo.decode
      (WorkersApi.executeConfig "https://api" "agent" (VObj []) Demo.tools)
      None (mkPayload None None) responses in
  requested (fst inline)
  = [WorkerStart (Some (VObj []));
     WorkerContinue (Some "e1")
       (Some [mkToolResult "call-w" "lookup" (Some (VStr "found")) None
                None None None None])]
  /\ requested (fst shared)
     = [WorkerStart (Some (VObj []));
        WorkerContinue (Some "e1")
          (Some [mkToolResult "call-w" "lookup" (Some (VStr "found")) None
                   None None None (Some "worker-1")])]
  /\ yielded (fst inline) = yielded (fst shared)
  /\ inline <> shared.
Proof.
  cbv zeta. split; [vm_compute; reflexivity|]. split; [vm_compute; reflexivity|].
  split; [vm_compute; reflexivity|].
  intros Hsame. apply (f_equal (fun run => requested (fst run))) in Hsame.
  vm_compute in Hsame. discriminate.
Qed.

(** Apart from the worker identifier the two loops agree: when the
    validator never gives a pending call with a worker identifier, the
    inline loop started with an input and the shared loop configured as
    [WorkersApi.execute] does it have the same log and the same outcome. *)
Section WorkerAgreement.

Variable parseEvent : string -> option StreamEvent.
Context {DecoderState : Type}.
Variable newTextDecoder : DecoderState.
Variable decode : DecoderState -> list Byte.byte -> DecoderState * string.
Variables baseUrl agentId : string.
Variable tools : ToolHandlers.
Variable input : Value.
Variable signal : option nat.

Local Abbreviation streamConfig := (Worker.mkWorkerStreamConfig baseUrl agentId tools).
Local Abbreviation workerPayload := (Worker.mkWorkerPayload (Some input) None None).
Local Abbreviation config := (WorkersApi.executeConfig baseUrl agentId input tools).

Hypothesis parse_without_workerId : forall payload calls,
  parseEvent payload = Some (ToolRequest calls) ->
  Forall (fun tc => tc_workerId tc = None) calls.

Lemma Worker_handleEvent_agree (vars : LoopVars) (event : StreamEvent) :
  Worker.handleEvent vars event = handleEvent config vars event.
Proof. destruct event; reflexivity. Qed.

Lemma Worker_processLines_agree (vars : LoopVars) (lines : list string) :
  Worker.processLines parseEvent vars lines = processLines parseEvent config vars lines.
Proof.
  revert vars. induction lines as [|line lines IH]; intros vars; [reflexivity|].
  cbn [Worker.processLines processLines].
  unfold Worker.processLine, processLine.
  destruct (isDataLine line); [|rewrite IH; reflexivity].
  destruct (parseEvent (slice 6 line)) as [event|]; [|rewrite IH; reflexivity].
  rewrite Worker_handleEvent_agree.
  destruct (handleEvent config vars event) as [acts vars']. rewrite IH. reflexivity.
Qed.

Lemma Worker_readLoop_agree (reads : list ReadResult) (decoder : DecoderState)
    (buffer : string) (vars : LoopVars) (clock : nat) :
  Worker.readLoop parseEvent decode signal reads decoder buffer vars clock
  = readLoop parseEvent decode config signal reads decoder buffer vars clock.
Proof.
  revert decoder buffer vars clock.
  induction reads as [|read reads IH]; intros decoder buffer vars clock;
    [reflexivity|].
  cbn [Worker.readLoop readLoop]. destruct (aborted signal clock); [reflexivity|].
  destruct read as [value| |err]; [|reflexivity|reflexivity].
  destruct (decode decoder value) as [decoder' text].
  destruct (takeLines buffer text) as [lines buffer'].
  rewrite Worker_processLines_agree.
  destruct (processLines parseEvent config vars lines) as [acts vars'].
  rewrite IH. reflexivity.
Qed.

Lemma handleEvent_withoutWorkerId (vars : LoopVars) (payload : string)
    (event : StreamEvent) :
  parseEvent payload = Some event ->
  withoutWorkerId (v_pendingToolCalls vars) ->
  withoutWorkerId (v_pendingToolCalls (snd (handleEvent config vars event))).
Proof using parse_without_workerId.
  intros Hparse Hvars. rewrite handleEvent_pending.
  destruct event; try exact Hvars.
  cbn [lastToolRequest withoutWorkerId]. eapply parse_without_workerId. exact Hparse.
Qed.

Lemma processLines_withoutWorkerId (vars : LoopVars) (lines : list string) :
  withoutWorkerId (v_pendingToolCalls vars) ->
  withoutWorkerId (v_pendingToolCalls (snd (processLines parseEvent config vars lines))).
Proof using parse_without_workerId.
  revert vars. induction lines as [|line lines IH]; intros vars Hvars; [exact Hvars|].
  cbn [processLines]. unfold processLine.
  destruct (isDataLine line).
  - destruct (parseEvent (slice 6 line)) as [event|] eqn:Hparse.
    + pose proof (handleEvent_withoutWorkerId vars _ event Hparse Hvars) as Hnext.
      destruct (handleEvent config vars event) as [acts vars']. cbn [snd] in Hnext.
      specialize (IH vars' Hnext).
      destruct (processLines parseEvent config vars' lines). exact IH.
    + specialize (IH vars Hvars).
      destruct (processLines parseEvent config vars lines). exact IH.
  - specialize (IH vars Hvars).
    destruct (processLines parseEvent config vars lines). exact IH.
Qed.

Lemma readLoop_withoutWorkerId (reads : list ReadResult) (decoder : DecoderState)
    (buffer : string) (vars : LoopVars) (clock : nat) :
  withoutWorkerId (v_pendingToolCalls vars) ->
  match snd (readLoop parseEvent decode config signal reads decoder buffer vars clock) with
  | StreamDone vars' _ => withoutWorkerId (v_pendingToolCalls vars')
  | Stopped _ => True
  end.
Proof using parse_without_workerId.
  revert decoder buffer vars clock.
  induction reads as [|read reads IH]; intros decoder buffer vars clock Hvars;
    cbn [readLoop]; destruct (aborted signal clock); try exact I; try exact Hvars.
  destruct read as [value| |err]; try exact I.
  destruct (decode decoder value) as [decoder' text].
  destruct (takeLines buffer text) as [lines buffer'].
  pose proof (processLines_withoutWorkerId vars lines Hvars) as Hnext.
  destruct (processLines parseEvent config vars lines) as [acts vars'].
  cbn [snd] in Hnext. specialize (IH decoder' buffer' vars' (S clock) Hnext).
  destruct (readLoop parseEvent decode config signal reads decoder' buffer' vars' (S clock)).
  exact IH.
Qed.

Lemma Worker_runServerTool_agree (tc : PendingToolCall) :
  tc_workerId tc = None ->
  Worker.runServerTool streamConfig tc = runServerTool config tc.
Proof.
  intros Hworker. unfold Worker.runServerTool, runServerTool. rewrite Hworker.
  reflexivity.
Qed.

Lemma Worker_serverResults_agree (calls : list PendingToolCall) :
  Forall (fun tc => tc_workerId tc = None) calls ->
  Worker.serverResults streamConfig calls = serverResults config calls.
Proof.
  intros Hcalls. unfold Worker.serverResults, serverResults.
  change (Worker.serverTools streamConfig calls) with (serverTools config calls).
  unfold serverTools.
  induction Hcalls as [|tc tcs Htc _ IH]; [reflexivity|].
  destruct (decide (hasHandler config tc)) as [Hhandler|Hhandler].
  - rewrite filter_cons_True by exact Hhandler. cbn [map].
    rewrite IH, Worker_runServerTool_agree by exact Htc. reflexivity.
  - rewrite filter_cons_False by exact Hhandler. exact IH.
Qed.

Lemma Worker_afterStream_agree (vars : LoopVars) :
  withoutWorkerId (v_pendingToolCalls vars) ->
  Worker.afterStream streamConfig vars = afterStream config vars.
Proof.
  intros Hvars. unfold Worker.afterStream, afterStream.
  destruct (v_pendingToolCalls vars) as [[|tc tcs]|]; try reflexivity.
  cbn [withoutWorkerId] in Hvars.
  rewrite (Worker_serverResults_agree _ Hvars). reflexivity.
Qed.

Lemma Worker_executeLoop_agree (responses : list Response)
    (executionId : option string) (toolResults : option (list ToolResult))
    (clock : nat) :
  Worker.executeLoop parseEvent newTextDecoder decode streamConfig workerPayload signal
    responses executionId toolResults clock
  = executeLoop parseEvent newTextDecoder decode config signal
      responses executionId toolResults clock.
Proof using parse_without_workerId.
  revert executionId toolResults clock.
  induction responses as [|response later IH]; intros executionId toolResults clock.
  - cbn [Worker.executeLoop executeLoop]. destruct (aborted signal clock); reflexivity.
  - cbn [Worker.executeLoop executeLoop]. destruct (aborted signal clock); [reflexivity|].
    destruct response as [|err|status apiError| |reads];
      [reflexivity|reflexivity|reflexivity|reflexivity|].
    rewrite Worker_readLoop_agree.
    pose proof (readLoop_withoutWorkerId reads newTextDecoder EmptyString
                  (mkLoopVars executionId None true) (S clock) I) as Hvars.
    destruct (readLoop parseEvent decode config signal reads newTextDecoder
                EmptyString (mkLoopVars executionId None true) (S clock))
      as [acts [outcome|vars clock']]; [reflexivity|].
    cbn [snd] in Hvars. destruct (aborted signal clock'); [reflexivity|].
    rewrite (Worker_afterStream_agree vars Hvars).
    destruct (afterStream config vars) as [acts' [outcome|results]]; [reflexivity|].
    rewrite IH. reflexivity.
Qed.

(** When no tool-request carries a [workerId], the inline loop of workers.ts started
    with an input and [executeStream] as [WorkersApi.execute] configures it give the
    same log and the same outcome, for every script of responses and every signal. *)
Theorem worker_loops_agree_without_workerId (responses : list Response) :
  Worker.executeWorkerStream parseEvent newTextDecoder decode streamConfig workerPayload
    signal responses
  = executeStream parseEvent newTextDecoder decode config signal (mkPayload None None)
      responses.
Proof using parse_without_workerId. apply Worker_executeLoop_agree. Qed.

End WorkerAgreement.

(** ** Further facts about the loop *)

(** The read loop itself does not see the chunk boundaries: without
    cancellation, two bodies whose chunks decode to the same text give the
    same log and leave the same loop variables. *)
Lemma readLoop_chunk_invariance {Body DecoderState : Type}
    (parseEvent : string -> option StreamEvent)
    (newTextDecoder : DecoderState)
    (decode : DecoderState -> list Byte.byte -> DecoderState * string)
    (config : StreamExecutionConfig Body)
    (chunks1 chunks2 : list (list Byte.byte)) (vars : LoopVars) (clock1 clock2 : nat) :
  decodedText decode chunks1 newTextDecoder = decodedText decode chunks2 newTextDecoder ->
  exists log vars',
    readLoop parseEvent decode config None (map ReadChunk chunks1) newTextDecoder
      EmptyString vars clock1
    = (log, StreamDone vars' (S (clock1 + length chunks1)))
    /\ readLoop parseEvent decode config None (map ReadChunk chunks2) newTextDecoder
         EmptyString vars clock2
       = (log, StreamDone vars' (S (clock2 + length chunks2))).
Proof.
  intros Htext. rewrite !readLoop_chunks by reflexivity.
  rewrite !frameLines_text by reflexivity. rewrite Htext. eauto.
Qed.

(** A tool request with an empty call list followed by finish{tool-calls}:
    the finish is held back, because an empty array is truthy, and nothing
    is pending afterwards, because its length is zero: the invocation
    returns without any event. *)
Lemma empty_tool_request_swallows_finish :
  Demo.parseEvent "{tool-request}" = Some (ToolRequest [])
  /\ Demo.run Demo.tools None None None
       [Demo.body ["{tool-request}"; "{finish tool-calls}"]]
     = ([Fetch "/trigger" (None, None)], Returned).
Proof. split; vm_compute; reflexivity. Qed.

(** * Further properties of the code *)

(** ** The buffer of the read loop *)

Lemma nl_append (s : string) : nl +:+ s = String newline s.
Proof. reflexivity. Qed.

Lemma takeLines_lines (buffer text : string) :
  Forall (fun line => hasNewline line = false) (fst (takeLines buffer text)).
Proof.
  rewrite takeLines_buffer. generalize (buffer +:+ text) as s. clear.
  induction s as [|c s IH]; [constructor|].
  destruct (Ascii.eqb c newline) eqn:Hc.
  - apply Ascii.eqb_eq in Hc. subst c. rewrite takeLines_newline.
    constructor; [reflexivity|exact IH].
  - rewrite takeLines_char by assumption. unfold prependChar.
    destruct (takeLines EmptyString s) as [[|line lines] rest]; cbn [fst snd] in *;
      [constructor|].
    inversion IH as [|? ? Hline Hlines]; subst. constructor; [|exact Hlines].
    cbn [hasNewline]. rewrite Hc, Hline. reflexivity.
Qed.

(** [buffer += text; lines = buffer.split(newline); buffer = lines.pop()]
    loses nothing and cuts at every newline: the lines, each followed by a
    newline, and then the new buffer are the old buffer followed by the
    text; no line holds a newline, nor does the new buffer. *)
Theorem takeLines_reassembles (buffer text : string) :
  unlines (fst (takeLines buffer text)) (snd (takeLines buffer text)) = buffer +:+ text
  /\ Forall (fun line => hasNewline line = false) (fst (takeLines buffer text))
  /\ hasNewline (snd (takeLines buffer text)) = false.
Proof.
  split; [|split; [apply takeLines_lines|apply takeLines_rest]].
  rewrite takeLines_buffer. generalize (buffer +:+ text) as s. clear.
  induction s as [|c s IH]; [reflexivity|].
  destruct (Ascii.eqb c newline) eqn:Hc.
  - apply Ascii.eqb_eq in Hc. subst c. rewrite takeLines_newline.
    cbn [fst snd unlines fold_right]. fold (unlines (fst (takeLines EmptyString s))
                                              (snd (takeLines EmptyString s))).
    rewrite IH. reflexivity.
  - rewrite takeLines_char by assumption. unfold prependChar.
    destruct (takeLines EmptyString s) as [[|line lines] rest]; cbn [fst snd] in *.
    + cbn [unlines fold_right] in *. rewrite IH. reflexivity.
    + cbn [unlines fold_right] in *. rewrite append_cons, IH. reflexivity.
Qed.

(** ** Records that are not events *)

Section Records.

Context {Body : Type}.
Variable parseEvent : string -> option StreamEvent.
Variable config : StreamExecutionConfig Body.

(** A line that is not a data record, or whose payload does not parse to
    a valid event, changes nothing: the lines before and after it are
    handled as if it were not there. *)
Theorem malformed_line_skipped (vars : LoopVars) (before after : list string)
    (line : string) :
  isDataLine line = false \/ parseEvent (slice 6 line) = None ->
  processLines parseEvent config vars (before ++ line :: after)
  = processLines parseEvent config vars (before ++ after).
Proof.
  intros Hline. rewrite !processLines_handleEvents, !dataRecords_app.
  replace (dataRecords (line :: after))
    with (dataRecords [line] ++ dataRecords after)
    by (rewrite <- dataRecords_app; reflexivity).
  rewrite !omap_app.
  replace (omap parseEvent (dataRecords [line])) with (@nil StreamEvent);
    [reflexivity|].
  unfold dataRecords. cbn [List.filter].
  destruct Hline as [Hdata|Hparse].
  - rewrite Hdata. reflexivity.
  - destruct (isDataLine line); [|reflexivity].
    cbn [map]. rewrite omap_cons_match, Hparse. reflexivity.
Qed.

End Records.

Lemma malformed_line_skipped_witness :
  processLines Demo.parseEvent (Demo.config Demo.tools None) (mkLoopVars None None true)
    (["data: {start e1}"] ++ "data: {not an event" :: ["data: {finish stop}"])
  = processLines Demo.parseEvent (Demo.config Demo.tools None) (mkLoopVars None None true)
      (["data: {start e1}"] ++ ["data: {finish stop}"]).
Proof.
  apply (malformed_line_skipped Demo.parseEvent (Demo.config Demo.tools None)).
  right. vm_compute. reflexivity.
Defined.

(** ** What holds of every run *)

Lemma Forall_yielded {Body : Type} (Q : StreamEvent -> Prop) (log : list (Action Body)) :
  Forall (fun action => match action with Yield event => Q event | _ => True end) log ->
  Forall Q (yielded log).
Proof.
  induction 1 as [|action log Haction _ IH]; [constructor|].
  unfold yielded in *. rewrite omap_cons_match.
  destruct action; try exact IH. constructor; assumption.
Qed.

Lemma Forall_requested {Body : Type} (Q : Body -> Prop) (log : list (Action Body)) :
  Forall (fun action => match action with Fetch _ body => Q body | _ => True end) log ->
  Forall Q (requested log).
Proof.
  induction 1 as [|action log Haction _ IH]; [constructor|].
  unfold requested in *. rewrite omap_cons_match.
  destruct action; try exact IH. constructor; assumption.
Qed.

Section WholeRun.

Context {Body : Type}.
Variable parseEvent : string -> option StreamEvent.
Context {DecoderState : Type}.
Variable newTextDecoder : DecoderState.
Variable decode : DecoderState -> list Byte.byte -> DecoderState * string.
Variable config : StreamExecutionConfig Body.
Variable signal : option nat.

Local Abbreviation loop := (executeLoop parseEvent newTextDecoder decode config signal).

(** A property of actions that the handling of every event keeps holds of
    the whole log of the read loop. *)
Lemma processLines_log (P : Action Body -> Prop) (vars : LoopVars)
    (lines : list string) :
  (forall vars event, Forall P (fst (handleEvent config vars event))) ->
  Forall P (fst (processLines parseEvent config vars lines)).
Proof.
  intros Hevent. revert vars.
  induction lines as [|line lines IH]; intros vars; [constructor|].
  cbn [processLines]. unfold processLine.
  destruct (isDataLine line);
    [destruct (parseEvent (slice 6 line)) as [event|]|].
  - specialize (Hevent vars event).
    destruct (handleEvent config vars event) as [acts vars'].
    specialize (IH vars').
    destruct (processLines parseEvent config vars' lines) as [acts' vars''].
    cbn [fst] in *. apply Forall_app. split; assumption.
  - specialize (IH vars).
    destruct (processLines parseEvent config vars lines). exact IH.
  - specialize (IH vars).
    destruct (processLines parseEvent config vars lines). exact IH.
Qed.

Lemma readLoop_log (P : Action Body -> Prop) (reads : list ReadResult)
    (decoder : DecoderState) (buffer : string) (vars : LoopVars) (clock : nat) :
  (forall vars event, Forall P (fst (handleEvent config vars event))) ->
  P (Yield finishStop) ->
  Forall P (fst (readLoop parseEvent decode config signal reads decoder buffer vars clock)).
Proof.
  intros Hevent Hstop. revert decoder buffer vars clock.
  induction reads as [|read reads IH]; intros decoder buffer vars clock;
    cbn [readLoop]; destruct (aborted signal clock); cbn [fst];
    try (repeat constructor; assumption).
  destruct read as [value| |err]; cbn [fst]; try (repeat constructor; assumption).
  destruct (decode decoder value) as [decoder' text].
  destruct (takeLines buffer text) as [lines buffer'].
  pose proof (processLines_log P vars lines Hevent) as Hlines.
  destruct (processLines parseEvent config vars lines) as [acts vars'].
  specialize (IH decoder' buffer' vars' (S clock)).
  destruct (readLoop parseEvent decode config signal reads decoder' buffer' vars' (S clock)).
  cbn [fst] in *. apply Forall_app. split; assumption.
Qed.

Lemma executeLoop_log (P : Action Body -> Prop) (responses : list Response)
    (executionId : option string) (toolResults : option (list ToolResult))
    (clock : nat) :
  (forall vars event, Forall P (fst (handleEvent config vars event))) ->
  (forall vars, Forall P (fst (afterStream config vars))) ->
  (forall event, isFinish event = true \/ (exists t m s, event = ErrorEvent t m s) ->
                 P (Yield event)) ->
  (forall executionId toolResults,
      P (Fetch (url config) (buildBody config executionId toolResults))) ->
  Forall P (fst (loop responses executionId toolResults clock)).
Proof.
  intros Hevent Hafter Hend Hfetch. revert executionId toolResults clock.
  assert (Hstop : P (Yield finishStop)) by (apply Hend; left; reflexivity).
  induction responses as [|response later IH]; intros executionId toolResults clock;
    cbn [executeLoop]; destruct (aborted signal clock); cbn [fst];
    try (repeat constructor; auto; fail).
  destruct response as [|err|status apiError| |reads]; cbn [fst];
    try (repeat constructor; auto; fail).
  - repeat constructor; auto. apply Hend. right. unfold createApiErrorEvent. eauto.
  - repeat constructor; auto. apply Hend. right. unfold createInternalErrorEvent. eauto.
  - pose proof (readLoop_log P reads newTextDecoder EmptyString
                  (mkLoopVars executionId None true) (S clock) Hevent Hstop) as Hread.
    destruct (readLoop parseEvent decode config signal reads newTextDecoder EmptyString
                (mkLoopVars executionId None true) (S clock))
      as [acts [outcome|vars clock']]; cbn [fst] in *.
    + constructor; auto.
    + destruct (aborted signal clock'); cbn [fst].
      * constructor; auto. apply Forall_app. split; [assumption|].
        repeat constructor. exact Hstop.
      * specialize (Hafter vars).
        destruct (afterStream config vars) as [acts' [outcome|results]]; cbn [fst] in *.
        -- constructor; auto. apply Forall_app. split; assumption.
        -- specialize (IH (v_executionId vars) (Some results) (S clock')).
           destruct (executeLoop parseEvent newTextDecoder decode config signal later
                       (v_executionId vars) (Some results) (S clock')).
           cbn [fst] in *. constructor; auto.
           apply Forall_app. split; [assumption|].
           apply Forall_app. split; assumption.
Qed.

(** The tool-request event is internal to the protocol: whatever the
    responses, the signal and the handlers, no run ever yields one. *)
Theorem tool_request_never_yielded (payload : StreamExecutionPayload)
    (responses : list Response) :
  Forall (fun event => isToolRequest event = false)
    (yielded (fst (executeStream parseEvent newTextDecoder decode config signal
                     payload responses))).
Proof.
  apply Forall_yielded. unfold executeStream. apply executeLoop_log.
  - intros vars event. unfold handleEvent.
    destruct event as [id|reason id|errorType message status|calls|id calls results
                      |id output|id error|name value|type payload'];
      cbn [fst]; try (repeat constructor; fail).
    + destruct (_ && _); cbn [fst]; repeat constructor.
    + destruct (onResourceUpdate config) as [callback|];
        [destruct (callback name value)|]; repeat constructor.
  - intros vars. unfold afterStream.
    destruct (v_pendingToolCalls vars) as [[|tc tcs]|]; cbn [fst]; try constructor.
    assert (Houtputs :
      Forall (fun action : Action Body =>
                match action with
                | Yield event => isToolRequest event = false
                | _ => True
                end)
        (map (fun tr => Yield (toolOutputEvent tr)) (serverResults config (tc :: tcs)))).
    { apply Forall_map, Forall_forall. intros tr _. cbn.
      unfold toolOutputEvent. destruct (truthy (tr_error tr)); reflexivity. }
    destruct (clientTools config (tc :: tcs)); cbn [fst]; [exact Houtputs|].
    destruct (negb (truthy (v_executionId vars))); cbn [fst];
      (apply Forall_app; split; [exact Houtputs|repeat constructor]).
  - intros event [Hfinish|(t & m & s & ->)]; [|reflexivity].
    destruct event; try discriminate; reflexivity.
  - intros executionId toolResults. exact I.
Qed.

End WholeRun.

(** ** The requests of an invocation *)

Section Requests.

Context {Body : Type}.
Variable parseEvent : string -> option StreamEvent.
Context {DecoderState : Type}.
Variable newTextDecoder : DecoderState.
Variable decode : DecoderState -> list Byte.byte -> DecoderState * string.
Variable config : StreamExecutionConfig Body.
Variable signal : option nat.

(** A property of the execution identifier that every start event with a
    non-empty identifier establishes. *)
Variable known : option string -> Prop.
Hypothesis known_start : forall id, truthy (Some id) = true -> known (Some id).

Lemma handleEvent_known (vars : LoopVars) (event : StreamEvent) :
  known (v_executionId vars) ->
  known (v_executionId (snd (handleEvent config vars event))).
Proof using known_start.
  intros Hvars. rewrite handleEvent_executionId.
  destruct event as [[id|]| | | | | | | |]; cbn [capturedExecutionId]; try exact Hvars.
  destruct (truthy (Some id)) eqn:Hid; [|exact Hvars]. apply known_start. exact Hid.
Qed.

Lemma processLines_known (vars : LoopVars) (lines : list string) :
  known (v_executionId vars) ->
  known (v_executionId (snd (processLines parseEvent config vars lines))).
Proof using known_start.
  revert vars. induction lines as [|line lines IH]; intros vars Hvars; [exact Hvars|].
  cbn [processLines]. unfold processLine.
  destruct (isDataLine line);
    [destruct (parseEvent (slice 6 line)) as [event|]|].
  - pose proof (handleEvent_known vars event Hvars) as Hnext.
    destruct (handleEvent config vars event) as [acts vars']. cbn [snd] in Hnext.
    specialize (IH vars' Hnext).
    destruct (processLines parseEvent config vars' lines). exact IH.
  - specialize (IH vars Hvars).
    destruct (processLines parseEvent config vars lines). exact IH.
  - specialize (IH vars Hvars).
    destruct (processLines parseEvent config vars lines). exact IH.
Qed.

Lemma readLoop_known (reads : list ReadResult) (decoder : DecoderState)
    (buffer : string) (vars : LoopVars) (clock : nat) :
  known (v_executionId vars) ->
  match snd (readLoop parseEvent decode config signal reads decoder buffer vars clock) with
  | StreamDone vars' _ => known (v_executionId vars')
  | Stopped _ => True
  end.
Proof using known_start.
  revert decoder buffer vars clock.
  induction reads as [|read reads IH]; intros decoder buffer vars clock Hvars;
    cbn [readLoop]; destruct (aborted signal clock); try exact I; try exact Hvars.
  destruct read as [value| |err]; try exact I.
  destruct (decode decoder value) as [decoder' text].
  destruct (takeLines buffer text) as [lines buffer'].
  pose proof (processLines_known vars lines Hvars) as Hnext.
  destruct (processLines parseEvent config vars lines) as [acts vars'].
  cbn [snd] in Hnext. specialize (IH decoder' buffer' vars' (S clock) Hnext).
  destruct (readLoop parseEvent decode config signal reads decoder' buffer' vars' (S clock)).
  exact IH.
Qed.

(** The first request is built from the state the loop is entered with,
    every later one from an execution identifier that is the initial one
    or that of a start event, and from the results of server tools. *)
Lemma executeLoop_requests (Q : Body -> Prop) (responses : list Response)
    (executionId : option string) (toolResults : option (list ToolResult))
    (clock : nat) :
  known executionId ->
  Q (buildBody config executionId toolResults) ->
  (forall id results, known id -> Q (buildBody config id (Some results))) ->
  Forall Q (requested (fst (executeLoop parseEvent newTextDecoder decode config signal
                              responses executionId toolResults clock))).
Proof using known_start.
  intros Hknown Hfirst Hlater. revert executionId toolResults clock Hknown Hfirst.
  induction responses as [|response later IH];
    intros executionId toolResults clock Hknown Hfirst;
    cbn [executeLoop]; destruct (aborted signal clock); cbn [fst];
    try (repeat constructor; assumption).
  destruct response as [|err|status apiError| |reads]; cbn [fst];
    try (repeat constructor; assumption).
  pose proof (readLoop_known reads newTextDecoder EmptyString
                (mkLoopVars executionId None true) (S clock) Hknown) as Hvars.
  pose proof (readLoop_log parseEvent decode config signal
                (fun action => isFetch action = false) reads newTextDecoder EmptyString
                (mkLoopVars executionId None true) (S clock)
                (handleEvent_no_fetch config) eq_refl) as Hread.
  destruct (readLoop parseEvent decode config signal reads newTextDecoder EmptyString
              (mkLoopVars executionId None true) (S clock))
    as [acts [outcome|vars clock']]; cbn [fst snd] in *.
  - rewrite requested_fetch, requested_no_fetch by exact Hread.
    repeat constructor. exact Hfirst.
  - assert (Hafter : Forall (fun action => isFetch action = false)
                       (fst (afterStream config vars))).
    { unfold afterStream.
      destruct (v_pendingToolCalls vars) as [[|tc tcs]|]; cbn [fst]; try constructor.
      assert (Houtputs :
        Forall (fun action : Action Body => isFetch action = false)
          (map (fun tr => Yield (toolOutputEvent tr)) (serverResults config (tc :: tcs))))
        by (apply Forall_map, Forall_forall; reflexivity).
      destruct (clientTools config (tc :: tcs)); cbn [fst]; [exact Houtputs|].
      destruct (negb (truthy (v_executionId vars))); cbn [fst];
        (apply Forall_app; split; [exact Houtputs|repeat constructor]). }
    destruct (aborted signal clock'); cbn [fst].
    + rewrite requested_fetch, requested_app, requested_no_fetch by exact Hread.
      repeat constructor. exact Hfirst.
    + destruct (afterStream config vars) as [acts' [outcome|results]]; cbn [fst] in *.
      * rewrite requested_fetch, requested_app, !requested_no_fetch by assumption.
        repeat constructor. exact Hfirst.
      * specialize (IH (v_executionId vars) (Some results) (S clock') Hvars
                      (Hlater _ _ Hvars)).
        destruct (executeLoop parseEvent newTextDecoder decode config signal later
                    (v_executionId vars) (Some results) (S clock')).
        cbn [fst] in *.
        rewrite requested_fetch, !requested_app, !requested_no_fetch by assumption.
        constructor; [exact Hfirst|exact IH].
Qed.

End Requests.

(** Every request of a session invocation is shaped by the request that
    started it.  After a trigger, each body, also that of a continuation
    after server tools, repeats the trigger name and the input.  After a
    continue, each body carries an execution identifier and tool results,
    and no trigger name or input. *)
Theorem session_request_bodies (parseEvent : string -> option StreamEvent)
    {DecoderState : Type} (newTextDecoder : DecoderState)
    (decode : DecoderState -> list Byte.byte -> DecoderState * string)
    (baseUrl sessionId : string) (tools : ToolHandlers)
    (resources : list Session.Resource) (request : Session.SessionRequest)
    (signal : option nat) (responses : list Response) :
  Forall (fun body =>
            match request with
            | Session.TriggerRequest triggerName input =>
                Session.body_triggerName body = Some triggerName
                /\ Session.body_input body = input
            | Session.ContinueRequest _ _ =>
                Session.body_triggerName body = None
                /\ Session.body_input body = None
                /\ is_Some (Session.body_executionId body)
                /\ is_Some (Session.body_toolResults body)
            end)
    (requested (fst (Session.execute parseEvent newTextDecoder decode baseUrl sessionId
                       tools resources request signal responses))).
Proof.
  unfold Session.execute, executeStream. destruct request as [name input|id results].
  - apply (executeLoop_requests parseEvent newTextDecoder decode _ signal
             (fun _ => True)); auto.
  - apply (executeLoop_requests parseEvent newTextDecoder decode _ signal
             (fun id => is_Some id)); cbn; eauto 10.
Qed.

(** [WorkersApi.continue] never starts an execution anew: every request is
    a continue request with an execution identifier and tool results, the
    first one with those of the call. *)
Theorem workers_continue_requests (parseEvent : string -> option StreamEvent)
    {DecoderState : Type} (newTextDecoder : DecoderState)
    (decode : DecoderState -> list Byte.byte -> DecoderState * string)
    (baseUrl agentId executionId : string) (toolResults : list ToolResult)
    (tools : ToolHandlers) (signal : option nat)
    (responses : list Response) :
  let run :=
    executeStream parseEvent newTextDecoder decode
      (WorkersApi.continueConfig baseUrl agentId executionId toolResults tools)
      signal (mkPayload (Some executionId) (Some toolResults)) responses in
  Forall (fun body => exists id results, body = WorkerContinue (Some id) (Some results))
    (requested (fst run))
  /\ (aborted signal 0 = false ->
      head (requested (fst run))
      = Some (WorkerContinue (Some executionId) (Some toolResults))).
Proof.
  cbv zeta. split.
  - unfold executeStream.
    apply (executeLoop_requests parseEvent newTextDecoder decode _ signal
             (fun id => is_Some id)); cbn; eauto.
  - intros Hsignal. unfold executeStream.
    destruct (executeLoop_starts_with_request parseEvent newTextDecoder decode
                (WorkersApi.continueConfig baseUrl agentId executionId toolResults tools)
                signal responses (Some executionId) (Some toolResults) 0 Hsignal)
      as [rest Hrest].
    cbn [payload_executionId payload_toolResults]. rewrite Hrest. reflexivity.
Qed.

(** [WorkersApi.execute] sends the start request with the input as long
    as no execution identifier is known, and afterwards only continue
    requests that carry a non-empty execution identifier. *)
Theorem workers_execute_requests (parseEvent : string -> option StreamEvent)
    {DecoderState : Type} (newTextDecoder : DecoderState)
    (decode : DecoderState -> list Byte.byte -> DecoderState * string)
    (baseUrl agentId : string) (input : Value)
    (tools : ToolHandlers) (signal : option nat)
    (responses : list Response) :
  Forall (fun body =>
            body = WorkerStart (Some input)
            \/ exists id toolResults,
                 id <> EmptyString /\ body = WorkerContinue (Some id) toolResults)
    (requested (fst (executeStream parseEvent newTextDecoder decode
                       (WorkersApi.executeConfig baseUrl agentId input tools)
                       signal (mkPayload None None) responses))).
Proof.
  unfold executeStream.
  assert (Hbody : forall id toolResults,
            buildBody (WorkersApi.executeConfig baseUrl agentId input tools) id toolResults
            = WorkerStart (Some input)
            \/ exists id' toolResults',
                 id' <> EmptyString
                 /\ buildBody (WorkersApi.executeConfig baseUrl agentId input tools)
                      id toolResults
                    = WorkerContinue (Some id') toolResults').
  { intros [id|] toolResults; cbn; [|left; reflexivity].
    destruct (String.eqb_spec id EmptyString); cbn; [left; reflexivity|].
    right. eauto. }
  apply (executeLoop_requests parseEvent newTextDecoder decode _ signal
           (fun _ => True)); auto.
Qed.

(** ** Edge cases of one round trip *)

Lemma lastToolRequest_app (pending : option (list PendingToolCall))
    (events events' : list StreamEvent) :
  lastToolRequest pending (events ++ events')
  = lastToolRequest (lastToolRequest pending events) events'.
Proof.
  revert pending. induction events as [|event events IH]; intros pending; [reflexivity|].
  cbn [app]. rewrite lastToolRequest_cons, IH, <- lastToolRequest_cons. reflexivity.
Qed.

Lemma capturedExecutionId_app (current : option string)
    (events events' : list StreamEvent) :
  capturedExecutionId current (events ++ events')
  = capturedExecutionId (capturedExecutionId current events) events'.
Proof.
  revert current. induction events as [|event events IH]; intros current; [reflexivity|].
  cbn [app]. rewrite capturedExecutionId_cons, IH, <- capturedExecutionId_cons.
  reflexivity.
Qed.

Lemma lastToolRequest_none (pending : option (list PendingToolCall))
    (events : list StreamEvent) :
  Forall (fun event => isToolRequest event = false) events ->
  lastToolRequest pending events = pending.
Proof.
  induction 1 as [|event events Hevent _ IH]; [reflexivity|].
  destruct event; try discriminate; exact IH.
Qed.

Section RoundEdges.

Context {Body : Type}.
Variable parseEvent : string -> option StreamEvent.
Context {DecoderState : Type}.
Variable newTextDecoder : DecoderState.
Variable decode : DecoderState -> list Byte.byte -> DecoderState * string.
Variable config : StreamExecutionConfig Body.
Variable signal : option nat.

Local Abbreviation events_of chunks := (parsedEvents parseEvent newTextDecoder decode chunks).
Local Abbreviation loop := (executeLoop parseEvent newTextDecoder decode config signal).

(** A later tool request replaces the pending calls of an earlier one:
    after the events of a stream the pending calls are those of its last
    tool request, whatever was pending before it. *)
Theorem last_tool_request_replaces_pending (vars : LoopVars)
    (before after : list StreamEvent) (calls : list PendingToolCall) :
  Forall (fun event => isToolRequest event = false) after ->
  v_pendingToolCalls
    (snd (handleEvents config vars (before ++ ToolRequest calls :: after)))
  = Some calls.
Proof.
  intros Hafter. rewrite handleEvents_pending, lastToolRequest_app.
  cbn [lastToolRequest]. apply lastToolRequest_none. exact Hafter.
Qed.

(** The execution identifier follows the service: a start event with a
    non-empty identifier overwrites the one known so far, and start events
    without an identifier, or with an empty one, leave it. *)
Theorem last_start_sets_execution_id (vars : LoopVars)
    (before after : list StreamEvent) (id : string) :
  id <> EmptyString ->
  Forall (fun event => match event with
                       | Start id' => truthy id' = false
                       | _ => True
                       end) after ->
  v_executionId (snd (handleEvents config vars (before ++ Start (Some id) :: after)))
  = Some id.
Proof.
  intros Hid Hafter. rewrite handleEvents_executionId, capturedExecutionId_app.
  cbn [capturedExecutionId truthy].
  destruct (String.eqb_spec id EmptyString); [contradiction|]. cbn [negb].
  generalize (Some id) as current.
  induction Hafter as [|event events Hevent _ IH]; intros current; [reflexivity|].
  destruct event; cbn [capturedExecutionId]; try apply IH.
  rewrite Hevent. apply IH.
Qed.

Lemma clientTools_none_handled (calls : list PendingToolCall) :
  Forall (fun tc => toolHandlers config !! tc_toolName tc = None) calls ->
  clientTools config calls = calls /\ serverTools config calls = [].
Proof.
  induction 1 as [|tc tcs Htc _ [IHclient IHserver]]; [split; reflexivity|].
  rewrite clientTools_cons_unhandled, serverTools_cons_unhandled by exact Htc.
  rewrite IHclient, IHserver. split; reflexivity.
Qed.

(** When none of the pending calls has a handler, no handler runs and no
    tool output is yielded: after the events of the stream come the
    client-tool-request with all the calls in their order and no server
    results, and finish{client-tool-calls}. *)
Theorem pause_with_only_client_tools (chunks : list (list Byte.byte))
    (later : list Response) (executionId : option string)
    (toolResults : option (list ToolResult)) (clock : nat)
    (calls : list PendingToolCall) (id : string) :
  aborted signal (clock + length chunks + 2) = false ->
  lastToolRequest None (events_of chunks) = Some calls ->
  calls <> [] ->
  Forall (fun tc => toolHandlers config !! tc_toolName tc = None) calls ->
  capturedExecutionId executionId (events_of chunks) = Some id ->
  id <> EmptyString ->
  loop (OkBody (map ReadChunk chunks) :: later) executionId toolResults clock
  = (Fetch (url config) (buildBody config executionId toolResults)
     :: fst (handleEvents config (mkLoopVars executionId None true) (events_of chunks))
     ++ [Yield (ClientToolRequest id calls None);
         Yield (Finish "client-tool-calls" (Some id))],
     Returned).
Proof.
  intros Hsignal Hpending Hne Hnone Hid Hid'.
  destruct (clientTools_none_handled calls Hnone) as [Hclient Hserver].
  rewrite executeLoop_round by exact Hsignal. cbv zeta.
  rewrite (afterStream_pause _ _ calls id).
  - unfold serverResults. rewrite Hclient, Hserver. reflexivity.
  - rewrite handleEvents_pending. exact Hpending.
  - rewrite Hclient. exact Hne.
  - rewrite handleEvents_executionId. exact Hid.
  - exact Hid'.
Qed.

(** A finish that the stream forwards ends the loop even when server
    tools are pending: the handlers run and their outputs are yielded, but
    the results are sent nowhere, since no further request is issued. *)
Theorem forwarded_finish_stops_continuation (chunks : list (list Byte.byte))
    (later : list Response) (executionId : option string)
    (toolResults : option (list ToolResult)) (clock : nat)
    (calls : list PendingToolCall) :
  aborted signal (clock + length chunks + 2) = false ->
  lastToolRequest None (events_of chunks) = Some calls ->
  calls <> [] ->
  Forall (fun tc => is_Some (toolHandlers config !! tc_toolName tc)) calls ->
  forwardsFinish false (events_of chunks) = true ->
  let run := loop (OkBody (map ReadChunk chunks) :: later) executionId toolResults clock in
  run = (Fetch (url config) (buildBody config executionId toolResults)
         :: fst (handleEvents config (mkLoopVars executionId None true) (events_of chunks))
         ++ map (fun tr => Yield (toolOutputEvent tr)) (serverResults config calls),
         Returned)
  /\ requested (fst run) = [buildBody config executionId toolResults].
Proof.
  intros Hsignal Hpending Hne Hhandled Hfinish run.
  assert (Hrun : run
                 = (Fetch (url config) (buildBody config executionId toolResults)
                    :: fst (handleEvents config (mkLoopVars executionId None true)
                              (events_of chunks))
                    ++ map (fun tr => Yield (toolOutputEvent tr))
                         (serverResults config calls),
                    Returned)).
  { subst run. rewrite executeLoop_round by exact Hsignal. cbv zeta.
    rewrite (afterStream_all_handled _ _ calls).
    - rewrite handleEvents_continueLoop. cbn [v_continueLoop v_pendingToolCalls].
      rewrite bool_decide_eq_false_2 by (intros [x Hx]; discriminate).
      rewrite Hfinish. reflexivity.
    - rewrite handleEvents_pending. exact Hpending.
    - exact Hne.
    - apply clientTools_all_handled. exact Hhandled. }
  split; [exact Hrun|]. rewrite Hrun. cbn [fst].
  rewrite requested_fetch, requested_app.
  rewrite (requested_no_fetch (fst (handleEvents _ _ _)))
    by apply handleEvents_no_fetch.
  rewrite requested_no_fetch by (apply Forall_map, Forall_forall; reflexivity).
  reflexivity.
Qed.

Lemma handleEvent_holds_finish (vars : LoopVars) (event : StreamEvent) :
  forwardsFinish (bool_decide (is_Some (v_pendingToolCalls vars))) [event] = false ->
  Forall (fun event => isFinish event = false)
    (yielded (fst (handleEvent config vars event))).
Proof.
  unfold handleEvent.
  destruct event as [id|reason id|errorType message status|calls|id calls results
                    |id output|id error|name value|type payload];
    cbn [forwardsFinish fst v_pendingToolCalls]; intros Hheld;
    try (repeat constructor; fail).
  - destruct (truthy id); cbn [v_pendingToolCalls]. all: revert Hheld.
    all: destruct (String.eqb reason "tool-calls"
                   && bool_decide (is_Some (v_pendingToolCalls vars)));
      [constructor|discriminate].
  - destruct (onResourceUpdate config) as [callback|];
      [destruct (callback name value)|]; repeat constructor.
Qed.

Lemma handleEvents_holds_finish (vars : LoopVars) (events : list StreamEvent) :
  forwardsFinish (bool_decide (is_Some (v_pendingToolCalls vars))) events = false ->
  Forall (fun event => isFinish event = false)
    (yielded (fst (handleEvents config vars events))).
Proof.
  revert vars. induction events as [|event events IH]; intros vars; [constructor|].
  rewrite forwardsFinish_cons. intros [Hfirst Hrest]%orb_false_elim.
  cbn [handleEvents]. pose proof (handleEvent_holds_finish vars event Hfirst) as Hevent.
  pose proof (handleEvent_pending config vars event) as Hpending.
  destruct (handleEvent config vars event) as [acts vars']. cbn [fst snd] in *.
  rewrite <- lastToolRequest_is_Some, <- Hpending in Hrest.
  specialize (IH vars' Hrest). destruct (handleEvents config vars' events).
  cbn [fst] in *. rewrite yielded_app. apply Forall_app. split; assumption.
Qed.

(** A tool request that lists no call still holds back the finish that
    asks for the tool calls, while nothing is pending after the stream:
    when the last tool request of a stream is empty and every finish was
    held back, the invocation returns after the events of the stream, none
    of which is a finish, and issues no further request. *)
Theorem empty_tool_request_ends_silently (chunks : list (list Byte.byte))
    (later : list Response) (executionId : option string)
    (toolResults : option (list ToolResult)) (clock : nat) :
  aborted signal (clock + length chunks + 2) = false ->
  lastToolRequest None (events_of chunks) = Some [] ->
  forwardsFinish false (events_of chunks) = false ->
  let streamed :=
    fst (handleEvents config (mkLoopVars executionId None true) (events_of chunks)) in
  loop (OkBody (map ReadChunk chunks) :: later) executionId toolResults clock
  = (Fetch (url config) (buildBody config executionId toolResults) :: streamed, Returned)
  /\ Forall (fun event => isFinish event = false) (yielded streamed).
Proof.
  intros Hsignal Hpending Hfinish streamed. split.
  - rewrite executeLoop_round by exact Hsignal. cbv zeta.
    unfold afterStream. rewrite handleEvents_pending. cbn [v_pendingToolCalls].
    rewrite Hpending. cbn [fst snd]. rewrite app_nil_r. reflexivity.
  - apply handleEvents_holds_finish. cbn [v_pendingToolCalls].
    rewrite bool_decide_eq_false_2 by (intros [x Hx]; discriminate).
    exact Hfinish.
Qed.

End RoundEdges.

(** ** Cancellation while the stream is read *)

Section Cancellation.

Context {Body : Type}.
Variable parseEvent : string -> option StreamEvent.
Context {DecoderState : Type}.
Variable newTextDecoder : DecoderState.
Variable decode : DecoderState -> list Byte.byte -> DecoderState * string.
Variable config : StreamExecutionConfig Body.

Lemma readLoop_cancelled (before after : list (list Byte.byte))
    (decoder : DecoderState) (buffer : string) (vars : LoopVars) (clock : nat) :
  readLoop parseEvent decode config (Some (clock + length before))
    (map ReadChunk (before ++ after)) decoder buffer vars clock
  = (fst (handleEvents config vars
            (omap parseEvent (dataRecords (frameLines decode before decoder buffer))))
     ++ [Yield finishStop],
     Stopped Returned).
Proof.
  revert decoder buffer vars clock.
  induction before as [|value before IH]; intros decoder buffer vars clock.
  - cbn [length app frameLines]. rewrite Nat.add_0_r.
    assert (Haborted : aborted (Some clock) clock = true)
      by (cbn; apply Nat.leb_refl).
    destruct after; cbn [map readLoop]; rewrite Haborted; reflexivity.
  - cbn [length app map readLoop frameLines].
    assert (Hrunning : aborted (Some (clock + S (length before))) clock = false)
      by (cbn; apply Nat.leb_gt; lia).
    rewrite Hrunning.
    destruct (decode decoder value) as [decoder' text].
    destruct (takeLines buffer text) as [lines buffer'].
    rewrite processLines_handleEvents.
    rewrite dataRecords_app, omap_app, handleEvents_app.
    destruct (handleEvents config vars (omap parseEvent (dataRecords lines)))
      as [acts vars'].
    replace (clock + S (length before)) with (S clock + length before) by lia.
    rewrite IH. cbn [fst snd]. rewrite app_assoc. reflexivity.
Qed.

(** Cancellation seen while a stream is read, or right after it closed:
    the chunks read before the poll that sees it are handled, what follows
    is never read, no tool handler runs and no further request is issued;
    the log ends with finish{stop}.  The poll that sees the cancellation
    is the one before read number [seen] (counted from 0), or the one after
    the stream when [seen] exceeds the number of chunks. *)
Theorem cancelled_during_stream (chunks : list (list Byte.byte))
    (later : list Response) (executionId : option string)
    (toolResults : option (list ToolResult)) (clock seen : nat) :
  seen <= S (length chunks) ->
  executeLoop parseEvent newTextDecoder decode config (Some (clock + 1 + seen))
    (OkBody (map ReadChunk chunks) :: later) executionId toolResults clock
  = (Fetch (url config) (buildBody config executionId toolResults)
     :: fst (handleEvents config (mkLoopVars executionId None true)
               (parsedEvents parseEvent newTextDecoder decode (take seen chunks)))
     ++ [Yield finishStop],
     Returned).
Proof.
  intros Hseen. cbn [executeLoop].
  assert (Hhead : aborted (Some (clock + 1 + seen)) clock = false)
    by (cbn; apply Nat.leb_gt; lia).
  rewrite Hhead.
  destruct (decide (seen <= length chunks)) as [Hread|Hafter].
  - rewrite <- (take_drop seen chunks) at 1.
    replace (clock + 1 + seen) with (S clock + length (take seen chunks))
      by (rewrite length_take; lia).
    rewrite readLoop_cancelled. reflexivity.
  - assert (seen = S (length chunks)) as -> by lia.
    rewrite readLoop_chunks by (cbn; apply Nat.leb_gt; lia).
    assert (Hpoll : aborted (Some (clock + 1 + S (length chunks)))
                      (S (S clock + length chunks)) = true)
      by (cbn; apply Nat.leb_le; lia).
    rewrite Hpoll. rewrite take_ge by lia. reflexivity.
Qed.

(** ** A last line without its newline *)

Lemma frameLines_app (chunks chunks' : list (list Byte.byte))
    (decoder : DecoderState) (buffer : string) :
  frameLines decode (chunks ++ chunks') decoder buffer
  = frameLines decode chunks decoder buffer
    ++ frameLines decode chunks'
         (fst (frameState decode chunks decoder buffer))
         (snd (frameState decode chunks decoder buffer)).
Proof.
  revert decoder buffer. induction chunks as [|value chunks IH]; intros decoder buffer;
    [reflexivity|].
  cbn [app frameLines frameState].
  destruct (decode decoder value) as [decoder' text].
  destruct (takeLines buffer text) as [lines buffer'].
  rewrite IH, app_assoc. reflexivity.
Qed.

Lemma frameState_buffer (chunks : list (list Byte.byte))
    (decoder : DecoderState) (buffer : string) :
  hasNewline buffer = false ->
  hasNewline (snd (frameState decode chunks decoder buffer)) = false.
Proof.
  revert decoder buffer. induction chunks as [|value chunks IH]; intros decoder buffer Hbuffer;
    [exact Hbuffer|].
  cbn [frameState]. destruct (decode decoder value) as [decoder' text].
  pose proof (takeLines_rest buffer text) as Hrest.
  destruct (takeLines buffer text) as [lines buffer']. apply IH. exact Hrest.
Qed.

(** Without a signal the polls play no role. *)
Lemma readLoop_clock (reads : list ReadResult) (decoder : DecoderState)
    (buffer : string) (vars : LoopVars) (clock clock' : nat) :
  fst (readLoop parseEvent decode config None reads decoder buffer vars clock)
  = fst (readLoop parseEvent decode config None reads decoder buffer vars clock')
  /\ match snd (readLoop parseEvent decode config None reads decoder buffer vars clock),
           snd (readLoop parseEvent decode config None reads decoder buffer vars clock')
     with
     | Stopped outcome, Stopped outcome' => outcome = outcome'
     | StreamDone vars1 _, StreamDone vars2 _ => vars1 = vars2
     | _, _ => False
     end.
Proof.
  revert decoder buffer vars clock clock'.
  induction reads as [|read reads IH]; intros decoder buffer vars clock clock';
    cbn [readLoop aborted fst snd]; [split; reflexivity|].
  destruct read as [value| |err]; cbn [fst snd]; [|split; reflexivity..].
  destruct (decode decoder value) as [decoder' text].
  destruct (takeLines buffer text) as [lines buffer'].
  destruct (processLines parseEvent config vars lines) as [acts vars'].
  specialize (IH decoder' buffer' vars' (S clock) (S clock')).
  destruct (readLoop parseEvent decode config None reads decoder' buffer' vars' (S clock)).
  destruct (readLoop parseEvent decode config None reads decoder' buffer' vars' (S clock')).
  cbn [fst snd] in *. destruct IH as [-> Hend]. split; [reflexivity|exact Hend].
Qed.

Lemma executeLoop_clock (responses : list Response) (executionId : option string)
    (toolResults : option (list ToolResult)) (clock clock' : nat) :
  executeLoop parseEvent newTextDecoder decode config None responses executionId
    toolResults clock
  = executeLoop parseEvent newTextDecoder decode config None responses executionId
      toolResults clock'.
Proof.
  revert executionId toolResults clock clock'.
  induction responses as [|response later IH];
    intros executionId toolResults clock clock'; [reflexivity|].
  cbn [executeLoop aborted].
  destruct response as [|err|status apiError| |reads]; try reflexivity.
  pose proof (readLoop_clock reads newTextDecoder EmptyString
                (mkLoopVars executionId None true) (S clock) (S clock')) as Hread.
  destruct (readLoop parseEvent decode config None reads newTextDecoder EmptyString
              (mkLoopVars executionId None true) (S clock)) as [acts ending].
  destruct (readLoop parseEvent decode config None reads newTextDecoder EmptyString
              (mkLoopVars executionId None true) (S clock')) as [acts' ending'].
  cbn [fst snd] in Hread. destruct Hread as [-> Hend].
  destruct ending as [outcome|vars k], ending' as [outcome'|vars' k'];
    try contradiction; subst; [reflexivity|].
  destruct (afterStream config vars') as [acts [outcome|results]]; [reflexivity|].
  rewrite (IH _ _ (S k) (S k')). reflexivity.
Qed.

(** What stays in the buffer when the stream closes is discarded: a last
    chunk whose text holds no newline, such as a final record without its
    line end, changes nothing to the run. *)
Theorem unterminated_line_discarded (chunks : list (list Byte.byte))
    (value : list Byte.byte) (later : list Response)
    (executionId : option string) (toolResults : option (list ToolResult))
    (clock : nat) :
  hasNewline (snd (decode (fst (frameState decode chunks newTextDecoder EmptyString))
                     value)) = false ->
  executeLoop parseEvent newTextDecoder decode config None
    (OkBody (map ReadChunk (chunks ++ [value])) :: later) executionId toolResults clock
  = executeLoop parseEvent newTextDecoder decode config None
      (OkBody (map ReadChunk chunks) :: later) executionId toolResults clock.
Proof.
  intros Htext.
  assert (Hevents : parsedEvents parseEvent newTextDecoder decode (chunks ++ [value])
                    = parsedEvents parseEvent newTextDecoder decode chunks).
  { unfold parsedEvents, sseRecords. rewrite frameLines_app.
    pose proof (frameState_buffer chunks newTextDecoder EmptyString eq_refl) as Hbuffer.
    destruct (frameState decode chunks newTextDecoder EmptyString) as [decoder buffer].
    cbn [fst snd frameLines] in *.
    destruct (decode decoder value) as [decoder' text]. cbn [snd] in Htext.
    rewrite takeLines_buffer, takeLines_no_newline
      by (rewrite hasNewline_app, Hbuffer, Htext; reflexivity).
    rewrite !app_nil_r. reflexivity. }
  rewrite !executeLoop_round by reflexivity. cbv zeta. rewrite Hevents.
  destruct (afterStream config _) as [acts [outcome|results]]; cbn [fst snd];
    [reflexivity|].
  rewrite (executeLoop_clock later _ _ (clock + length (chunks ++ [value]) + 3)
             (clock + length chunks + 3)).
  reflexivity.
Qed.

End Cancellation.

(** ** The resources of a session *)

Lemma makeResourceMap_snoc (resources : list Session.Resource)
    (resource : Session.Resource) :
  Session.makeResourceMap (resources ++ [resource])
  = <[Session.res_name resource := resource]> (Session.makeResourceMap resources).
Proof. unfold Session.makeResourceMap. rewrite foldl_app. reflexivity. Qed.

(** The resource map of a session gives, for a name, the last resource of
    that name in the list the session was built with, and nothing for a
    name no resource has. *)
Theorem resource_map_last_wins (resources : list Session.Resource) (name : string) :
  Session.makeResourceMap resources !! name
  = last (filter (fun resource => Session.res_name resource = name) resources).
Proof.
  induction resources as [|resource resources IH] using rev_ind; [reflexivity|].
  rewrite makeResourceMap_snoc, filter_app.
  destruct (decide (Session.res_name resource = name)) as [Hname|Hname].
  - rewrite Hname, lookup_insert_eq.
    rewrite (filter_cons_True _ resource []) by exact Hname.
    rewrite filter_nil, last_snoc. reflexivity.
  - rewrite lookup_insert_ne by exact Hname.
    rewrite (filter_cons_False _ resource []) by exact Hname.
    rewrite filter_nil, app_nil_r. exact IH.
Qed.

Section SessionUpdates.

Variable parseEvent : string -> option StreamEvent.
Context {DecoderState : Type}.
Variable newTextDecoder : DecoderState.
Variable decode : DecoderState -> list Byte.byte -> DecoderState * string.
Variables baseUrl sessionId : string.
Variable tools : ToolHandlers.
Variable resources : list Session.Resource.
Variable payload : Session.SessionPayload.
Variable signal : option nat.

Local Abbreviation resourceMap := (Session.makeResourceMap resources).
Local Abbreviation config :=
  (Session.sessionConfig baseUrl sessionId tools resourceMap payload).

(** The update calls one resource-update event leads to. *)
Local Abbreviation updatesOf event :=
  (match event with
   | ResourceUpdate name value =>
       match resourceMap !! name with
       | Some resource => [(resource, value)]
       | None => []
       end
   | _ => []
   end).

Lemma resourceCalls_app (log log' : list (Action Session.SessionBody)) :
  Session.resourceCalls resourceMap (log ++ log')
  = Session.resourceCalls resourceMap log ++ Session.resourceCalls resourceMap log'.
Proof. unfold Session.resourceCalls. rewrite !flat_map_concat_map, map_app, concat_app. reflexivity. Qed.

Lemma resourceCalls_handleEvent (vars : LoopVars) (event : StreamEvent) :
  Session.resourceCalls resourceMap (fst (handleEvent config vars event))
  = updatesOf event.
Proof.
  unfold handleEvent.
  destruct event as [id|reason id|errorType message status|calls|id calls results
                    |id output|id error|name value|type payload'];
    cbn [fst]; try reflexivity.
  - destruct (_ && _); reflexivity.
  - cbn [onResourceUpdate Session.sessionConfig].
    unfold Session.handleResourceUpdate.
    destruct (resourceMap !! name) as [resource|] eqn:Hlookup; cbn [snd].
    + destruct (Session.res_onUpdate resource value); cbn [fst Session.resourceCalls flat_map];
        unfold Session.handleResourceUpdate; rewrite Hlookup; reflexivity.
    + cbn [fst Session.resourceCalls flat_map].
      unfold Session.handleResourceUpdate. rewrite Hlookup. reflexivity.
Qed.

Lemma resourceCalls_handleEvents (vars : LoopVars) (events : list StreamEvent) :
  Session.resourceCalls resourceMap (fst (handleEvents config vars events))
  = flat_map (fun event => updatesOf event) events.
Proof.
  revert vars. induction events as [|event events IH]; intros vars; [reflexivity|].
  cbn [handleEvents flat_map].
  pose proof (resourceCalls_handleEvent vars event) as Hevent.
  destruct (handleEvent config vars event) as [acts vars'].
  specialize (IH vars'). destruct (handleEvents config vars' events) as [acts' vars''].
  cbn [fst] in *. rewrite resourceCalls_app, Hevent, IH. reflexivity.
Qed.

(** While a session reads a stream, with no cancellation, the facade
    makes exactly one update call for each resource-update event whose
    name is in the resource map, with the value of the event and in the
    order of the stream, and none for the other events; this holds whether
    or not an update method throws. *)
Theorem session_update_calls (chunks : list (list Byte.byte))
    (vars : LoopVars) (clock : nat) :
  aborted signal (clock + length chunks) = false ->
  Session.resourceCalls resourceMap
    (fst (readLoop parseEvent decode config signal (map ReadChunk chunks)
            newTextDecoder EmptyString vars clock))
  = flat_map (fun event => updatesOf event)
      (parsedEvents parseEvent newTextDecoder decode chunks).
Proof.
  intros Hsignal. rewrite readLoop_chunks by exact Hsignal. cbn [fst].
  apply resourceCalls_handleEvents.
Qed.

End SessionUpdates.

(** ** The SSE stream of a source that fails *)

Section FailingSource.

Variable stringify : StreamEvent -> string.
Variable encode : string -> list Byte.byte.
Variable parseEvent : string -> option StreamEvent.
Context {DecoderState : Type}.
Variable newTextDecoder : DecoderState.
Variable decode : DecoderState -> list Byte.byte -> DecoderState * string.

Hypothesis decode_encode : forall text,
  decode newTextDecoder (encode text) = (newTextDecoder, text).

Lemma frameLines_records (events : list StreamEvent) :
  Forall (fun event => hasNewline (stringify event) = false) events ->
  frameLines decode
    (map (fun event => encode ("data: " +:+ stringify event +:+ nl +:+ nl)) events)
    newTextDecoder EmptyString
  = flat_map (fun event => ["data: " +:+ stringify event; EmptyString]) events.
Proof using decode_encode.
  induction 1 as [|event events Hevent _ IH]; [reflexivity|].
  cbn [map frameLines flat_map]. rewrite decode_encode.
  rewrite takeLines_record by assumption. rewrite IH. reflexivity.
Qed.

Lemma dataRecords_records (events : list StreamEvent) :
  Forall (fun event => stringify event <> "[DONE]") events ->
  dataRecords (flat_map (fun event => ["data: " +:+ stringify event; EmptyString]) events)
  = map stringify events.
Proof.
  unfold dataRecords.
  induction 1 as [|event events Hdone _ IH]; [reflexivity|].
  cbn [flat_map app List.filter map].
  rewrite isDataLine_record.
  destruct (String.eqb_spec (stringify event) "[DONE]") as [|_]; [contradiction|].
  cbn [negb]. change (isDataLine EmptyString) with false. cbn [map].
  rewrite slice_record, IH. reflexivity.
Qed.

(** When the iteration of the source throws, [toSSEStream] closes the
    stream with one record for an internal-error event in place of the
    sentinel: a consumer that decodes the stream gets the events delivered
    before the failure followed by that error event, and the stream holds
    no [data: [DONE]] line. *)
Theorem sse_stream_of_failing_source (events : list StreamEvent)
    (message : option string) :
  let failure := createInternalErrorEvent (default "Unknown error" message) in
  Forall (fun event =>
            hasNewline (stringify event) = false
            /\ stringify event <> "[DONE]"
            /\ parseEvent (stringify event) = Some event) (events ++ [failure]) ->
  frameLines decode (toSSEStream stringify encode events (Fails message))
    newTextDecoder EmptyString
  = flat_map (fun event => ["data: " +:+ stringify event; EmptyString])
      (events ++ [failure])
  /\ parsedEvents parseEvent newTextDecoder decode
       (toSSEStream stringify encode events (Fails message))
     = events ++ [failure].
Proof using decode_encode.
  intros failure Hevents.
  assert (Hchunks :
    toSSEStream stringify encode events (Fails message)
    = map (fun event => encode ("data: " +:+ stringify event +:+ nl +:+ nl))
        (events ++ [failure])).
  { unfold toSSEStream. rewrite map_app. reflexivity. }
  assert (Hlines :
    frameLines decode (toSSEStream stringify encode events (Fails message))
      newTextDecoder EmptyString
    = flat_map (fun event => ["data: " +:+ stringify event; EmptyString])
        (events ++ [failure])).
  { rewrite Hchunks. apply frameLines_records.
    eapply Forall_impl; [exact Hevents|]. intros event (Hline & _ & _). exact Hline. }
  split; [exact Hlines|].
  unfold parsedEvents, sseRecords. rewrite Hlines, dataRecords_records.
  - apply omap_parse_stringify.
    eapply Forall_impl; [exact Hevents|]. intros event (_ & _ & Hparse). exact Hparse.
  - eapply Forall_impl; [exact Hevents|]. intros event (_ & Hdone & _). exact Hdone.
Qed.

End FailingSource.

(** ** Internal tools and skill tools *)

(** Every skill tool is an internal tool: a name [isOctavusSkillTool]
    accepts carries the reserved prefix. *)
Theorem skill_tools_are_internal (toolName : string) :
  InternalTools.isOctavusSkillTool toolName = true ->
  InternalTools.isOctavusInternalTool toolName = true.
Proof.
  unfold InternalTools.isOctavusSkillTool.
  cbn [InternalTools.OCTAVUS_SKILL_TOOLS map snd existsb].
  change (InternalTools.internalTool "SKILL_READ") with (Some "octavus_skill_read").
  change (InternalTools.internalTool "SKILL_LIST") with (Some "octavus_skill_list").
  change (InternalTools.internalTool "SKILL_RUN") with (Some "octavus_skill_run").
  change (InternalTools.internalTool "CODE_RUN") with (Some "octavus_code_run").
  change (InternalTools.internalTool "FILE_WRITE") with (Some "octavus_file_write").
  change (InternalTools.internalTool "FILE_READ") with (Some "octavus_file_read").
  intros Hskill.
  repeat (apply orb_prop in Hskill as [Hskill|Hskill];
          [apply String.eqb_eq in Hskill; subst toolName; reflexivity|]).
  discriminate.
Qed.

(** [getSkillSlugFromToolCall] reports a slug only for a tool with the
    reserved prefix whose arguments hold that slug as a string under the
    key [skill]; for any other tool it reports nothing, whatever the
    arguments. *)
Theorem skill_slug_only_for_skill_tools (toolName : string)
    (args : option (gmap string Value)) (slug : string) :
  InternalTools.getSkillSlugFromToolCall toolName args = Some slug ->
  InternalTools.isOctavusInternalTool toolName = true
  /\ InternalTools.isOctavusSkillTool toolName = true
  /\ exists fields, args = Some fields /\ fields !! "skill" = Some (VStr slug).
Proof.
  unfold InternalTools.getSkillSlugFromToolCall.
  destruct args as [fields|]; [|discriminate].
  destruct (InternalTools.isOctavusSkillTool toolName) eqn:Hskill; [|discriminate].
  cbn [negb]. destruct (fields !! "skill") as [[| | | |text| |]|] eqn:Hfield;
    try discriminate.
  intros [= ->]. split; [apply skill_tools_are_internal; exact Hskill|].
  split; [reflexivity|]. eauto.
Qed.

(** ** Instances *)

Lemma last_tool_request_replaces_pending_witness :
  v_pendingToolCalls
    (snd (handleEvents (Demo.config Demo.tools None) (mkLoopVars None None true)
            ([Start (Some "e1"); ToolRequest [Demo.callA]]
             ++ ToolRequest [Demo.callB] :: [Finish "tool-calls" None])))
  = Some [Demo.callB].
Proof.
  apply (last_tool_request_replaces_pending (Demo.config Demo.tools None)).
  repeat constructor.
Defined.

Lemma last_start_sets_execution_id_witness :
  v_executionId
    (snd (handleEvents (Demo.config Demo.tools None) (mkLoopVars (Some "e0") None true)
            ([Start (Some "e1")] ++ Start (Some "e2") :: [Start None; Start (Some "")])))
  = Some "e2".
Proof.
  apply (last_start_sets_execution_id (Demo.config Demo.tools None)).
  - discriminate.
  - repeat constructor.
Defined.

Lemma pause_with_only_client_tools_witness :
  executeLoop Demo.parseEvent tt Demo.decode (Demo.config Demo.tools None) None
    [Demo.body ["{start e1}"; "{tool-request B}"; "{finish tool-calls}"]] None None 0
  = ([Fetch "/trigger" (None, None);
      Yield (Start (Some "e1"));
      Yield (ClientToolRequest "e1" [Demo.callB] None);
      Yield (Finish "client-tool-calls" (Some "e1"))],
     Returned).
Proof.
  refine (pause_with_only_client_tools Demo.parseEvent tt Demo.decode
            (Demo.config Demo.tools None) None
            (map (fun payload => Demo.encode (Demo.record payload))
               ["{start e1}"; "{tool-request B}"; "{finish tool-calls}"])
            [] None None 0 [Demo.callB] "e1" _ _ _ _ _ _).
  - reflexivity.
  - vm_compute. reflexivity.
  - discriminate.
  - repeat constructor.
  - vm_compute. reflexivity.
  - discriminate.
Defined.

Lemma forwarded_finish_stops_continuation_witness :
  executeLoop Demo.parseEvent tt Demo.decode (Demo.config Demo.tools None) None
    [Demo.body ["{start e1}"; "{tool-request A}"; "{finish stop}"];
     Demo.body ["{text hello}"; "{finish stop}"]] None None 0
  = ([Fetch "/trigger" (None, None);
      Yield (Start (Some "e1"));
      Yield (Finish "stop" None);
      Yield (ToolOutputAvailable "call-a" (VStr "found"))],
     Returned).
Proof.
  refine (proj1 (forwarded_finish_stops_continuation Demo.parseEvent tt Demo.decode
                   (Demo.config Demo.tools None) None
                   (map (fun payload => Demo.encode (Demo.record payload))
                      ["{start e1}"; "{tool-request A}"; "{finish stop}"])
                   [Demo.body ["{text hello}"; "{finish stop}"]]
                   None None 0 [Demo.callA] _ _ _ _ _)).
  - reflexivity.
  - vm_compute. reflexivity.
  - discriminate.
  - repeat constructor. vm_compute. eauto.
  - vm_compute. reflexivity.
Defined.

Lemma empty_tool_request_ends_silently_witness :
  executeLoop Demo.parseEvent tt Demo.decode (Demo.config Demo.tools None) None
    [Demo.body ["{start e1}"; "{tool-request}"; "{finish tool-calls}"]] None None 0
  = ([Fetch "/trigger" (None, None); Yield (Start (Some "e1"))], Returned).
Proof.
  refine (proj1 (empty_tool_request_ends_silently Demo.parseEvent tt Demo.decode
                   (Demo.config Demo.tools None) None
                   (map (fun payload => Demo.encode (Demo.record payload))
                      ["{start e1}"; "{tool-request}"; "{finish tool-calls}"])
                   [] None None 0 _ _ _)).
  - reflexivity.
  - vm_compute. reflexivity.
  - vm_compute. reflexivity.
Defined.

(** Cancellation seen before the second read: the first chunk is handled,
    the tool request of the second never is. *)
Lemma cancelled_during_stream_witness :
  executeLoop Demo.parseEvent tt Demo.decode (Demo.config Demo.tools None) (Some 2)
    [Demo.body ["{start e1}"; "{tool-request A}"]] None None 0
  = ([Fetch "/trigger" (None, None); Yield (Start (Some "e1")); Yield finishStop],
     Returned).
Proof.
  refine (cancelled_during_stream Demo.parseEvent tt Demo.decode
            (Demo.config Demo.tools None)
            (map (fun payload => Demo.encode (Demo.record payload))
               ["{start e1}"; "{tool-request A}"])
            [] None None 0 1 _).
  cbn. lia.
Defined.

(** A finish record that lacks its line end is never delivered. *)
Lemma unterminated_line_discarded_witness :
  executeLoop Demo.parseEvent tt Demo.decode (Demo.config Demo.tools None) None
    [OkBody (map ReadChunk ([Demo.encode (Demo.record "{start e1}")]
                            ++ [Demo.encode "data: {finish stop}"]))] None None 0
  = executeLoop Demo.parseEvent tt Demo.decode (Demo.config Demo.tools None) None
      [OkBody (map ReadChunk [Demo.encode (Demo.record "{start e1}")])] None None 0.
Proof.
  apply (unterminated_line_discarded Demo.parseEvent tt Demo.decode
           (Demo.config Demo.tools None)).
  vm_compute. reflexivity.
Defined.

(** Two resources named X and one named Y: the update for X goes to the
    second X, the update for an unknown name to nobody. *)
Lemma session_update_calls_witness :
  Session.resourceCalls
    (Session.makeResourceMap [Demo.firstX; Demo.otherY; Demo.brokenResource])
    (fst (readLoop Demo.parseEvent Demo.decode
            (Session.sessionConfig "https://api" "s1" Demo.noTools
               (Session.makeResourceMap [Demo.firstX; Demo.otherY; Demo.brokenResource])
               (Session.mkSessionPayload (Some "go") None None None))
            None
            (map ReadChunk
               (map (fun payload => Demo.encode (Demo.record payload))
                  ["{resource-update X 1}"; "{finish stop}"]))
            tt EmptyString (mkLoopVars None None true) 1))
  = flat_map (fun event =>
                match event with
                | ResourceUpdate name value =>
                    match Session.makeResourceMap
                            [Demo.firstX; Demo.otherY; Demo.brokenResource] !! name with
                    | Some resource => [(resource, value)]
                    | None => []
                    end
                | _ => []
                end)
      (parsedEvents Demo.parseEvent tt Demo.decode
         (map (fun payload => Demo.encode (Demo.record payload))
            ["{resource-update X 1}"; "{finish stop}"])).
Proof.
  apply (session_update_calls Demo.parseEvent tt Demo.decode "https://api" "s1" Demo.noTools
           [Demo.firstX; Demo.otherY; Demo.brokenResource]
           (Session.mkSessionPayload (Some "go") None None None) None).
  reflexivity.
Defined.

Lemma sse_stream_of_failing_source_witness :
  parsedEvents Demo.errorParseEvent tt Demo.decode
    (toSSEStream Demo.errorStringify Demo.encode [Start (Some "e1")] (Fails (Some "boom")))
  = [Start (Some "e1"); createInternalErrorEvent "boom"].
Proof.
  refine (proj2 (sse_stream_of_failing_source Demo.errorStringify Demo.encode
                   Demo.errorParseEvent tt Demo.decode Demo_decode_encode
                   [Start (Some "e1")] (Some "boom") _)).
  repeat constructor; vm_compute; congruence.
Defined.

Lemma skill_tools_are_internal_witness :
  InternalTools.isOctavusInternalTool "octavus_skill_run" = true.
Proof. apply skill_tools_are_internal. reflexivity. Defined.

Lemma skill_slug_only_for_skill_tools_witness :
  InternalTools.isOctavusInternalTool "octavus_skill_read" = true
  /\ InternalTools.isOctavusSkillTool "octavus_skill_read" = true
  /\ exists fields,
       Some ({[ "skill" := VStr "pdf" ]} : gmap string Value) = Some fields
       /\ fields !! "skill" = Some (VStr "pdf").
Proof.
  apply (skill_slug_only_for_skill_tools "octavus_skill_read"
           (Some {[ "skill" := VStr "pdf" ]}) "pdf").
  vm_compute. reflexivity.
Defined.

Lemma plainParseEvent_without_workerId (payload : string)
    (calls : list PendingToolCall) :
  Demo.plainParseEvent payload = Some (ToolRequest calls) ->
  Forall (fun tc => tc_workerId tc = None) calls.
Proof.
  unfold Demo.plainParseEvent, Demo.parseTable, Demo.plainTable.
  cbn [List.find fst snd].
  repeat (destruct (String.eqb _ payload);
          [cbn; intros [= <-] || discriminate; repeat constructor|]).
  discriminate.
Qed.

Lemma worker_loops_agree_without_workerId_witness :
  Worker.executeWorkerStream Demo.plainParseEvent tt Demo.decode
    (Worker.mkWorkerStreamConfig "https://api" "agent" Demo.tools)
    (Worker.mkWorkerPayload (Some (VObj [])) None None) None
    [Demo.body ["{start e1}"; "{tool-request A}"; "{finish tool-calls}"];
     Demo.body ["{finish stop}"]]
  = executeStream Demo.plainParseEvent tt Demo.decode
      (WorkersApi.executeConfig "https://api" "agent" (VObj []) Demo.tools)
      None (mkPayload None None)
      [Demo.body ["{start e1}"; "{tool-request A}"; "{finish tool-calls}"];
       Demo.body ["{finish stop}"]].
Proof.
  apply (worker_loops_agree_without_workerId Demo.plainParseEvent tt Demo.decode
           "https://api" "agent" Demo.tools (VObj []) None
           plainParseEvent_without_workerId).
Defined.
